(** * YKY Hub frontend (src/frontend/src/App.js): a shallow embedding

    The React single-page application is embedded as follows.

    - JavaScript values are an inductive type [jsval]; strings are sequences
      of UTF-16 code units, objects are association lists of own properties.
    - An [async] function of the source is a computation in the monad [M]:
      it reads the replies of the backend from an oracle, appends the
      effects it performs (requests, state-hook updates, toasts,
      navigations, timers) to a trace, and either returns or throws.
    - A function closes over the props and state of the render it was
      created in; these captured values are the Section variables of each
      component.  State hooks are only written through [Update] events, and
      the store after an operation is the fold of its updates.
    - [setTimeout] schedules a callback; the event loop runs the pending
      callbacks one after the other. *)

From Stdlib Require Import String Ascii List ZArith NArith Bool Arith Lia.
From Stdlib Require Import DecimalString.
Import ListNotations.

Set Warnings "-register-all".
Local Open Scope string_scope.
Local Open Scope list_scope.
Local Open Scope nat_scope.

(** ** JavaScript strings and values *)

(** A JavaScript string: its UTF-16 code units. *)
Definition jsstring := list N.

(** ASCII literals of the source text. *)
Definition lit (s : string) : jsstring :=
  map N_of_ascii (list_ascii_of_string s).

Coercion lit : string >-> jsstring.

(** Concatenation, also of the pieces of a template literal. *)
Definition cat (a b : jsstring) : jsstring := a ++ b.
Infix "+++" := cat (at level 60, right associativity).

Definition jsstring_eqb (a b : jsstring) : bool :=
  if list_eq_dec N.eq_dec a b then true else false.

Lemma jsstring_eqb_eq a b : jsstring_eqb a b = true <-> a = b.
Proof.
  unfold jsstring_eqb. destruct (list_eq_dec N.eq_dec a b); split; congruence.
Qed.

Lemma jsstring_eqb_refl a : jsstring_eqb a a = true.
Proof. apply jsstring_eqb_eq. reflexivity. Qed.

Lemma jsstring_eqb_neq a b : a <> b -> jsstring_eqb a b = false.
Proof.
  unfold jsstring_eqb. destruct (list_eq_dec N.eq_dec a b); congruence.
Qed.

(** WhiteSpace and LineTerminator code points of ECMAScript, the characters
    removed by [String.prototype.trim]. *)
Definition is_whitespace (c : N) : bool :=
  existsb (N.eqb c)
    [9; 10; 11; 12; 13; 32; 160; 5760; 8192; 8193; 8194; 8195; 8196; 8197;
     8198; 8199; 8200; 8201; 8202; 8232; 8233; 8239; 8287; 12288; 65279]%N.

Fixpoint trimStart (s : jsstring) : jsstring :=
  match s with
  | c :: s' => if is_whitespace c then trimStart s' else s
  | [] => []
  end.

Definition trimEnd (s : jsstring) : jsstring := rev (trimStart (rev s)).

(** [s.trim()] *)
Definition trim (s : jsstring) : jsstring := trimEnd (trimStart s).

(** JSON-like JavaScript values.  Numbers are the integers. *)
Inductive jsval :=
| JUndefined
| JNull
| JBool (b : bool)
| JNum (z : Z)
| JStr (s : jsstring)
| JArr (items : list jsval)
| JObj (props : list (jsstring * jsval)).

Definition jsobj := list (jsstring * jsval).

(** ToBoolean *)
Definition truthy (v : jsval) : bool :=
  match v with
  | JUndefined | JNull => false
  | JBool b => b
  | JNum z => negb (Z.eqb z 0)
  | JStr s => match s with [] => false | _ => true end
  | JArr _ | JObj _ => true
  end.

(** [a || b] *)
Definition js_or (a b : jsval) : jsval := if truthy a then a else b.

(** [v === 'literal'] *)
Definition strict_eq_str (v : jsval) (s : jsstring) : bool :=
  match v with
  | JStr s' => jsstring_eqb s' s
  | _ => false
  end.

Fixpoint lookup (k : jsstring) (o : jsobj) : option jsval :=
  match o with
  | [] => None
  | (k', v) :: o' => if jsstring_eqb k' k then Some v else lookup k o'
  end.

(** Assignment of an own property: an existing key keeps its place. *)
Fixpoint assign (k : jsstring) (v : jsval) (o : jsobj) : jsobj :=
  match o with
  | [] => [(k, v)]
  | (k', v') :: o' =>
      if jsstring_eqb k' k then (k, v) :: o' else (k', v') :: assign k v o'
  end.

Definition decimal (n : nat) : jsstring :=
  lit (NilZero.string_of_uint (Nat.to_uint n)).

Definition decimalZ (z : Z) : jsstring :=
  lit (NilZero.string_of_int (Z.to_int z)).

Fixpoint indexed {A} (f : A -> jsval) (i : nat) (l : list A) : jsobj :=
  match l with
  | [] => []
  | x :: l' => (decimal i, f x) :: indexed f (S i) l'
  end.

(** The own enumerable properties copied by an object spread [{...v}]. *)
Definition own_props (v : jsval) : jsobj :=
  match v with
  | JObj o => o
  | JArr l => indexed (fun x => x) 0 l
  | JStr s => indexed (fun c => JStr [c]) 0 s
  | JUndefined | JNull | JBool _ | JNum _ => []
  end.

(** [{ ...v, k: x }] *)
Definition spread_with (v : jsval) (k : jsstring) (x : jsval) : jsval :=
  JObj (assign k x (own_props v)).

(** [v?.k] for the field names read by the source, none of which is
    [length] or an index: primitives and arrays have no such property. *)
Definition opt_get (v : jsval) (k : jsstring) : jsval :=
  match v with
  | JObj o => match lookup k o with Some x => x | None => JUndefined end
  | _ => JUndefined
  end.

Fixpoint join (sep : jsstring) (l : list jsstring) : jsstring :=
  match l with
  | [] => []
  | [s] => s
  | s :: l' => s ++ sep ++ join sep l'
  end.

(** ToString, as performed by a template literal and by [new Error(v)], for
    the values on which it returns and whose text does not depend on the
    rounding of numbers: see [printable].  Elsewhere JavaScript throws a
    TypeError (an object with an own [toString], which JSON cannot make
    callable) or prints a number in its shortest or exponent form. *)
Fixpoint to_string (v : jsval) : jsstring :=
  match v with
  | JUndefined => "undefined"
  | JNull => "null"
  | JBool true => "true"
  | JBool false => "false"
  | JNum z => decimalZ z
  | JStr s => s
  | JArr l =>
      join ","
        (map (fun x => match x with
                       | JUndefined | JNull => []
                       | _ => to_string x
                       end) l)
  | JObj _ => "[object Object]"
  end.

(** The values that [to_string] renders as JavaScript does: integers that
    are exact as numbers, and no object with an own [toString] property. *)
Fixpoint printable (v : jsval) : bool :=
  match v with
  | JUndefined | JNull | JBool _ | JStr _ => true
  | JNum z => (Z.abs z <? 2 ^ 53)%Z
  | JArr l => forallb printable l
  | JObj o =>
      negb (existsb (fun kv => jsstring_eqb (fst kv) "toString") o)
  end.

(** ToString of the value returns: it holds no object with an own
    [toString] property, which JSON cannot make a function, so that the
    conversion of such an object throws a TypeError. *)
Fixpoint converts (v : jsval) : bool :=
  match v with
  | JArr l => forallb converts l
  | JObj o =>
      negb (existsb (fun kv => jsstring_eqb (fst kv) "toString") o)
  | _ => true
  end.

Lemma lookup_assign_same k v o : lookup k (assign k v o) = Some v.
Proof.
  induction o as [|[k' v'] o IH]; simpl.
  - now rewrite jsstring_eqb_refl.
  - destruct (jsstring_eqb k' k) eqn:E; simpl.
    + now rewrite jsstring_eqb_refl.
    + now rewrite E.
Qed.

Lemma lookup_assign_other k k' v o :
  k' <> k -> lookup k' (assign k v o) = lookup k' o.
Proof.
  intros Hne. induction o as [|[k0 v0] o IH]; simpl.
  - rewrite jsstring_eqb_neq; congruence.
  - destruct (jsstring_eqb k0 k) eqn:E; simpl.
    + apply jsstring_eqb_eq in E. subst k0.
      rewrite !jsstring_eqb_neq; congruence.
    + destruct (jsstring_eqb k0 k'); [reflexivity | exact IH].
Qed.

Lemma opt_get_spread_same v k x : opt_get (spread_with v k x) k = x.
Proof. simpl. now rewrite lookup_assign_same. Qed.

Lemma opt_get_spread_other v k k' x :
  k' <> k -> opt_get (spread_with v k x) k' = opt_get (JObj (own_props v)) k'.
Proof. intros H. simpl. now rewrite lookup_assign_other. Qed.

Lemma trimStart_whitespace s :
  forallb is_whitespace s = true -> trimStart s = [].
Proof.
  induction s as [|c s IH]; simpl; [reflexivity|].
  intros H. apply andb_prop in H as [Hc Hs]. rewrite Hc. auto.
Qed.

Lemma trim_whitespace s : forallb is_whitespace s = true -> trim s = [].
Proof.
  intros H. unfold trim, trimEnd. now rewrite (trimStart_whitespace s H).
Qed.

(** ** Requests, replies and effects *)

(** A [Blob]: its MIME type and its bytes. *)
Record blob := { blob_type : jsstring; blob_bytes : list N }.

(** The [body] option of a [fetch] call. *)
Inductive body :=
| NoBody
| JsonBody (v : jsval)                                   (* JSON.stringify(v) *)
| FormDataBody (parts : list (jsstring * blob * jsstring)). (* new FormData() *)

Record request := {
  url : jsstring;
  method : jsstring;
  headers : list (jsstring * jsstring);
  body_of : body
}.

(** What the backend does with the n-th request: the connection fails with
    a message, or a response arrives whose body parses as JSON or makes
    [res.json()] throw with a message. *)
Inductive reply :=
| NetworkError (message : jsstring)
| Response (ok : bool) (json : jsval + jsstring).

Definition server := nat -> reply.

(** The state hooks ([useState]) of the components. *)
Inductive hook :=
| AuthProvider_user | AuthProvider_token | AuthProvider_loading
| AuthPage_loading
| Dashboard_soulprint | Dashboard_loading
| VoiceOracle_messages | VoiceOracle_input | VoiceOracle_loading
| VoiceOracle_isRecording | VoiceOracle_isPlaying
| TarotPage_reading | TarotPage_loading | TarotPage_flippedCards
| BioScanner_isRecording | BioScanner_loading | BioScanner_result
| Community_posts | Community_newPost | Community_loading
| Profile_soulprint | Profile_loading
| PremiumPage_loading
| PaymentSuccess_status
| DatabasePage_results | DatabasePage_loading.

Definition hook_eq_dec (a b : hook) : {a = b} + {a <> b}.
Proof. decide equality. Defined.

(** The argument of a state setter: a new value, or the functional update
    [prev => [...prev, v]]. *)
Inductive updater :=
| SetTo (v : jsval)
| Append (v : jsval).

(** The arrow functions handed to [setTimeout]. *)
Inductive callback :=
| call_pollPaymentStatus (attempts : nat)  (* () => pollPaymentStatus(attempts) *)
| flip_card (idx : nat).  (* () => setFlippedCards(prev => [...prev, idx]) *)

Inductive event :=
| Fetch (r : request)
| Update (h : hook) (u : updater)
| ToastError (m : jsstring)
| ToastSuccess (m : jsstring)
| Navigate (to : jsstring)
| SetTimeout (cb : callback) (ms : nat)
| ConsoleError (m : jsstring)
| LocalStorageSet (k v : jsstring)
| LocalStorageRemove (k : jsstring)
| PlayAudio (base64 : jsval)
| LocationAssign (href : jsval)
| PreventDefault
| UnhandledRejection (m : jsstring).

(** The values of all state hooks. *)
Definition store := hook -> jsval.

Definition apply_updater (u : updater) (old : jsval) : jsval :=
  match u with
  | SetTo v => v
  | Append v => match old with JArr l => JArr (l ++ [v]) | _ => old end
  end.

Definition apply_event (st : store) (e : event) : store :=
  match e with
  | Update h u =>
      fun h' => if hook_eq_dec h h' then apply_updater u (st h) else st h'
  | _ => st
  end.

(** The store once React has processed the updates of a trace. *)
Definition commit (tr : list event) (st : store) : store :=
  fold_left apply_event tr st.

Inductive outcome (A : Type) :=
| Ret (a : A)
| Throw (message : jsstring).
Arguments Ret {A} a.
Arguments Throw {A} message.

(** An asynchronous computation: given the backend and the number of
    requests already answered, its outcome, the new number of requests and
    the effects performed, in order. *)
Definition M (A : Type) : Type :=
  server -> nat -> outcome A * nat * list event.

Definition ret {A} (a : A) : M A := fun _ n => (Ret a, n, []).

Definition bind {A B} (m : M A) (k : A -> M B) : M B :=
  fun srv n =>
    match m srv n with
    | (Ret a, n', tr) =>
        let '(o, n'', tr') := k a srv n' in (o, n'', tr ++ tr')
    | (Throw e, n', tr) => (Throw e, n', tr)
    end.

Declare Scope js_scope.
Delimit Scope js_scope with js.
Notation "x <- c1 ;; c2" := (bind c1 (fun x => c2))
  (at level 61, c1 at next level, right associativity) : js_scope.
Notation "c1 ;; c2" := (bind c1 (fun _ => c2))
  (at level 61, right associativity) : js_scope.
Local Open Scope js_scope.

(** [throw new Error(message)] *)
Definition throw {A} (message : jsstring) : M A :=
  fun _ n => (Throw message, n, []).

Definition emit (e : event) : M unit := fun _ n => (Ret tt, n, [e]).

(** [try { m } catch (err) { h err }] *)
Definition try_catch {A} (m : M A) (h : jsstring -> M A) : M A :=
  fun srv n =>
    match m srv n with
    | (Throw e, n', tr) =>
        let '(o, n'', tr') := h e srv n' in (o, n'', tr ++ tr')
    | r => r
    end.

(** [try { m } finally { f }] *)
Definition try_finally {A} (m : M A) (f : M unit) : M A :=
  fun srv n =>
    let '(o, n', tr) := m srv n in
    let '(o', n'', tr') := f srv n' in
    (match o' with Throw e => Throw e | Ret _ => o end, n'', tr ++ tr').

(** [await fetch(url, { method, headers, body })] *)
Definition fetch (r : request) : M (bool * (jsval + jsstring)) :=
  fun srv n =>
    match srv n with
    | NetworkError e => (Throw e, S n, [Fetch r])
    | Response ok b => (Ret (ok, b), S n, [Fetch r])
    end.

(** [await res.json()] *)
Definition json (res : bool * (jsval + jsstring)) : M jsval :=
  match snd res with
  | inl v => ret v
  | inr e => throw e
  end.

Definition ok (res : bool * (jsval + jsstring)) : bool := fst res.

(** [v.k]: reading a property of [null] or [undefined] throws a TypeError. *)
Definition get (v : jsval) (k : jsstring) : M jsval :=
  match v with
  | JUndefined | JNull =>
      throw ("Cannot read properties of " +++ to_string v
             +++ " (reading '" +++ k +++ "')")
  | _ => ret (opt_get v k)
  end.

Definition when (b : bool) (m : M unit) : M unit :=
  if b then m else ret tt.

Definition set (h : hook) (v : jsval) : M unit := emit (Update h (SetTo v)).

Definition trace_of {A} (r : outcome A * nat * list event) : list event :=
  snd r.

Definition outcome_of {A} (r : outcome A * nat * list event) : outcome A :=
  fst (fst r).

(** Run an operation against a backend, starting with its first reply. *)
Definition run {A} (m : M A) (srv : server) : list event :=
  trace_of (m srv 0).

Definition is_fetch (e : event) : bool :=
  match e with Fetch _ => true | _ => false end.

Definition is_update (e : event) : bool :=
  match e with Update _ _ => true | _ => false end.

Definition requests (tr : list event) : list request :=
  flat_map (fun e => match e with Fetch r => [r] | _ => [] end) tr.

(** ** Properties of every effect of a computation *)

Section Emits.
Variable P : event -> Prop.

(** Every effect the computation can perform, whatever the backend
    replies, satisfies [P]. *)
Definition emits {A} (m : M A) : Prop :=
  forall srv n, Forall P (trace_of (m srv n)).

Lemma emits_ret {A} (a : A) : emits (ret a).
Proof. intros srv n. constructor. Qed.

Lemma emits_throw {A} e : emits (@throw A e).
Proof. intros srv n. constructor. Qed.

Lemma emits_emit e : P e -> emits (emit e).
Proof. intros H srv n. repeat constructor. exact H. Qed.

Lemma emits_fetch r : P (Fetch r) -> emits (fetch r).
Proof.
  intros H srv n. unfold fetch, trace_of.
  destruct (srv n); simpl; repeat constructor; exact H.
Qed.

Lemma emits_bind {A B} (m : M A) (k : A -> M B) :
  emits m -> (forall a, emits (k a)) -> emits (bind m k).
Proof.
  intros Hm Hk srv n. unfold bind, trace_of.
  specialize (Hm srv n). unfold trace_of in Hm.
  destruct (m srv n) as [[[a|e] n'] tr]; simpl in *; [|exact Hm].
  specialize (Hk a srv n'). unfold trace_of in Hk.
  destruct (k a srv n') as [[o n''] tr']; simpl in *.
  apply Forall_app. split; assumption.
Qed.

Lemma emits_try_catch {A} (m : M A) h :
  emits m -> (forall e, emits (h e)) -> emits (try_catch m h).
Proof.
  intros Hm Hh srv n. unfold try_catch, trace_of.
  specialize (Hm srv n). unfold trace_of in Hm.
  destruct (m srv n) as [[[a|e] n'] tr]; simpl in *; [exact Hm|].
  specialize (Hh e srv n'). unfold trace_of in Hh.
  destruct (h e srv n') as [[o n''] tr']; simpl in *.
  apply Forall_app. split; assumption.
Qed.

Lemma emits_try_finally {A} (m : M A) f :
  emits m -> emits f -> emits (try_finally m f).
Proof.
  intros Hm Hf srv n. unfold try_finally, trace_of.
  specialize (Hm srv n). unfold trace_of in Hm.
  destruct (m srv n) as [[o n'] tr]; simpl in *.
  specialize (Hf srv n'). unfold trace_of in Hf.
  destruct (f srv n') as [[o' n''] tr']; simpl in *.
  apply Forall_app. split; assumption.
Qed.

Lemma emits_json res : emits (json res).
Proof.
  unfold json. destruct (snd res); [apply emits_ret | apply emits_throw].
Qed.

Lemma emits_get v k : emits (get v k).
Proof.
  unfold get. destruct v; first [apply emits_ret | apply emits_throw].
Qed.

Lemma emits_when b m : emits m -> emits (when b m).
Proof. intros H. destruct b; [exact H | apply emits_ret]. Qed.

Lemma emits_if {A} (b : bool) (m1 m2 : M A) :
  emits m1 -> emits m2 -> emits (if b then m1 else m2).
Proof. destruct b; auto. Qed.
End Emits.

Create HintDb emits.
#[export] Hint Resolve emits_ret emits_throw emits_bind emits_try_catch
  emits_try_finally emits_json emits_get emits_when emits_if : emits.

(** ** Timers *)

Section EventLoop.
(** What each scheduled callback does when it is called. *)
Variable exec : callback -> M unit.

Definition timer := (nat * callback)%type.

(** Timers are kept by due time; equal times fire in scheduling order. *)
Fixpoint insert_timer (t : timer) (q : list timer) : list timer :=
  match q with
  | [] => [t]
  | t' :: q' =>
      if fst t <? fst t' then t :: q else t' :: insert_timer t q'
  end.

Definition schedule (now : nat) (tr : list event) (q : list timer)
  : list timer :=
  fold_left
    (fun q e =>
       match e with
       | SetTimeout cb ms => insert_timer (now + ms, cb) q
       | _ => q
       end) tr q.

Definition stamp (now : nat) (tr : list event) : list (nat * event) :=
  map (pair now) tr.

Definition uncaught {A} (o : outcome A) : list event :=
  match o with
  | Throw e => [UnhandledRejection e]
  | Ret _ => []
  end.

(** Runs the pending timers until none is left.  The clock advances with
    the timers only; every effect is stamped with the time of the callback
    performing it.  [None]: more than [fuel] callbacks were pending. *)
Fixpoint event_loop (fuel : nat) (srv : server) (n : nat) (q : list timer)
  : option (list (nat * event)) :=
  match q with
  | [] => Some []
  | (now, cb) :: q' =>
      match fuel with
      | 0 => None
      | S fuel' =>
          let '(o, n', tr) := exec cb srv n in
          option_map (app (stamp now (tr ++ uncaught o)))
            (event_loop fuel' srv n' (schedule now tr q'))
      end
  end.

Lemma event_loop_nil fuel srv n : event_loop fuel srv n [] = Some [].
Proof. destruct fuel; reflexivity. Qed.

(** An operation started at time 0, and everything it causes later. *)
Definition run_to_completion (fuel : nat) (m : M unit) (srv : server)
  : option (list (nat * event)) :=
  let '(o, n, tr) := m srv 0 in
  option_map (app (stamp 0 (tr ++ uncaught o)))
    (event_loop fuel srv n (schedule 0 tr [])).
End EventLoop.

(** The times at which requests are sent. *)
Definition fetch_times (tr : list (nat * event)) : list nat :=
  map fst (filter (fun te => is_fetch (snd te)) tr).

(** The delays of the timers set. *)
Definition timer_delays (tr : list (nat * event)) : list nat :=
  flat_map (fun te => match snd te with
                      | SetTimeout _ ms => [ms]
                      | _ => []
                      end) tr.

(** The values written to a hook, in order. *)
Definition writes (h : hook) (tr : list event) : list updater :=
  flat_map (fun e => match e with
                     | Update h' u => if hook_eq_dec h h' then [u] else []
                     | _ => []
                     end) tr.

Fixpoint consecutive_gaps (l : list nat) : list nat :=
  match l with
  | a :: (b :: _) as l' => (b - a) :: consecutive_gaps l'
  | _ => []
  end.

(** ** The components *)

Definition field (k : jsstring) (v : jsval) : jsstring * jsval := (k, v).
Definition header (k v : jsstring) : jsstring * jsstring := (k, v).

(** [headers: { Authorization: `Bearer ${token}` }] *)
Definition bearer (token : jsval) : jsstring * jsstring :=
  header "Authorization" ("Bearer " +++ to_string token).

Definition content_type_json : jsstring * jsstring :=
  header "Content-Type" "application/json".

Module AuthProvider.
Section Closure.
Variable API_URL : jsstring.
(** [const [token, setToken] = useState(...)], as captured. *)
Variable token : jsval.

Definition logout : M unit :=
  emit (LocalStorageRemove "yky_token");;
  set AuthProvider_token JNull;;
  set AuthProvider_user JNull.

Definition fetchUser : M unit :=
  try_finally
    (try_catch
       (res <- fetch {| url := API_URL +++ "/api/auth/me";
                        method := "GET";
                        headers := [bearer token];
                        body_of := NoBody |};;
        if ok res then
          data <- json res;;
          set AuthProvider_user data
        else
          logout)
       (fun err => emit (ConsoleError err)))
    (set AuthProvider_loading (JBool false)).

Definition login (email password : jsval) : M jsval :=
  res <- fetch {| url := API_URL +++ "/api/auth/login";
                  method := "POST";
                  headers := [content_type_json];
                  body_of := JsonBody (JObj [field "email" email;
                                             field "password" password]) |};;
  if negb (ok res) then throw "Invalid credentials" else
  data <- json res;;
  tok <- get data "token";;
  emit (LocalStorageSet "yky_token" (to_string tok));;
  tok <- get data "token";;
  set AuthProvider_token tok;;
  usr <- get data "user";;
  set AuthProvider_user usr;;
  ret data.

Definition register (userData : jsval) : M jsval :=
  res <- fetch {| url := API_URL +++ "/api/auth/register";
                  method := "POST";
                  headers := [content_type_json];
                  body_of := JsonBody userData |};;
  if negb (ok res) then
    err <- json res;;
    detail <- get err "detail";;
    throw (to_string (js_or detail (JStr "Registration failed")))
  else
  data <- json res;;
  tok <- get data "token";;
  emit (LocalStorageSet "yky_token" (to_string tok));;
  tok <- get data "token";;
  set AuthProvider_token tok;;
  usr <- get data "user";;
  set AuthProvider_user usr;;
  ret data.
End Closure.
End AuthProvider.

Module AuthPage.
Section Closure.
Variable API_URL : jsstring.
(** [isLogin] and [formData], as captured. *)
Variable isLogin : bool.
Variable formData : jsval.

Definition handleSubmit : M unit :=
  emit PreventDefault;;
  set AuthPage_loading (JBool true);;
  try_finally
    (try_catch
       ((if isLogin then
           email <- get formData "email";;
           password <- get formData "password";;
           AuthProvider.login API_URL email password
         else
           AuthProvider.register API_URL formData);;
        emit (ToastSuccess (if isLogin then "Welcome back, Seeker"
                            else "Your journey begins"));;
        emit (Navigate "/dashboard"))
       (fun err => emit (ToastError err)))
    (set AuthPage_loading (JBool false)).
End Closure.
End AuthPage.

Module Dashboard.
Section Closure.
Variable API_URL : jsstring.
Variable token : jsval.

Definition fetchSoulprint : M unit :=
  try_finally
    (try_catch
       (res <- fetch {| url := API_URL +++ "/api/profile/soulprint";
                        method := "GET";
                        headers := [bearer token];
                        body_of := NoBody |};;
        if ok res then
          data <- json res;;
          set Dashboard_soulprint data
        else ret tt)
       (fun err => emit (ConsoleError err)))
    (set Dashboard_loading (JBool false)).
End Closure.
End Dashboard.

Module Profile.
Section Closure.
Variable API_URL : jsstring.
Variable token : jsval.

Definition fetchSoulprint : M unit :=
  try_finally
    (try_catch
       (res <- fetch {| url := API_URL +++ "/api/profile/soulprint";
                        method := "GET";
                        headers := [bearer token];
                        body_of := NoBody |};;
        if ok res then
          data <- json res;;
          set Profile_soulprint data
        else ret tt)
       (fun err => emit (ConsoleError err)))
    (set Profile_loading (JBool false)).
End Closure.
End Profile.

Definition is_empty (s : jsstring) : bool :=
  match s with [] => true | _ => false end.

(** A call [f(...)] of an async function that is not awaited: its effects
    happen, a rejection of its promise stays unhandled. *)
Definition detached (m : M unit) : M unit :=
  try_catch m (fun err => emit (UnhandledRejection err)).

Module VoiceOracle.
Section Closure.
Variable API_URL : jsstring.
Variable token : jsval.
Variable audioEnabled : bool.

(** Stops the audio playing, if any, and plays a fresh [Audio] element for
    the data URL. *)
Definition playAudio (base64 : jsval) : M unit := emit (PlayAudio base64).

Definition sendMessage (text : jsstring) : M unit :=
  if is_empty (trim text) then ret tt else
  let userMessage :=
    JObj [field "role" (JStr "user"); field "content" (JStr text)] in
  emit (Update VoiceOracle_messages (Append userMessage));;
  set VoiceOracle_input (JStr "");;
  set VoiceOracle_loading (JBool true);;
  try_finally
    (try_catch
       (let endpoint : jsstring :=
          if audioEnabled then "/api/oracle/speak" else "/api/oracle/chat" in
        res <- fetch {| url := API_URL +++ endpoint;
                        method := "POST";
                        headers := [content_type_json; bearer token];
                        body_of :=
                          JsonBody (JObj [field "message" (JStr text)]) |};;
        if negb (ok res) then throw "Oracle unavailable" else
        data <- json res;;
        text' <- get data "text";;
        content <- (if truthy text' then ret text'
                    else get data "response");;
        audio <- get data "audio_base64";;
        let oracleMessage :=
          JObj [field "role" (JStr "oracle"); field "content" content;
                field "audio" audio] in
        emit (Update VoiceOracle_messages (Append oracleMessage));;
        audio_base64 <- get data "audio_base64";;
        when (truthy audio_base64 && audioEnabled) (playAudio audio_base64))
       (fun _ => emit (ToastError "The Oracle is meditating. Try again.")))
    (set VoiceOracle_loading (JBool false)).

(** [mediaRecorder.onstop] of [startRecording]: the recorded [chunks]
    are uploaded for transcription. *)
Definition onstop (chunks : list N) : M unit :=
  let blob := {| blob_type := "audio/webm"; blob_bytes := chunks |} in
  let formData := [(lit "file", blob, lit "recording.webm")] in
  try_catch
    (res <- fetch {| url := API_URL +++ "/api/oracle/listen";
                     method := "POST";
                     headers := [bearer token];
                     body_of := FormDataBody formData |};;
     if ok res then
       data <- json res;;
       transcription <- get data "transcription";;
       if truthy transcription then
         match transcription with
         | JStr text => detached (sendMessage text)
         | _ => emit (UnhandledRejection "text.trim is not a function")
         end
       else ret tt
     else ret tt)
    (fun _ => emit (ToastError "Voice recognition failed")).
End Closure.
End VoiceOracle.

Fixpoint forEach_from (i : nat) (l : list jsval) (f : jsval -> nat -> M unit)
  : M unit :=
  match l with
  | [] => ret tt
  | x :: l' => f x i;; forEach_from (S i) l' f
  end.

(** [v.forEach((x, idx) => ...)] *)
Definition forEach (v : jsval) (f : jsval -> nat -> M unit) : M unit :=
  match v with
  | JArr l => forEach_from 0 l f
  | JUndefined | JNull =>
      throw ("Cannot read properties of " +++ to_string v
             +++ " (reading 'forEach')")
  | _ => throw "forEach is not a function"
  end.

Module TarotPage.
(** The [spreads] table: id, name, number of cards, premium. *)
Record spread := {
  id : jsstring; name : jsstring; cards : nat; premium : bool
}.

Definition spreads : list spread :=
  [ {| id := "single"; name := "Single Card"; cards := 1;
       premium := false |};
    {| id := "three_card"; name := "Past/Present/Future"; cards := 3;
       premium := false |};
    {| id := "celtic_cross"; name := "Celtic Cross"; cards := 10;
       premium := true |} ].

Section Closure.
Variable API_URL : jsstring.
Variable user token : jsval.
Variable spreadType question : jsstring.

Definition drawCards : M unit :=
  if negb (truthy (opt_get user "is_premium"))
     && jsstring_eqb spreadType "celtic_cross"
  then
    emit (ToastError "Celtic Cross requires Premium");;
    emit (Navigate "/premium")
  else
  set TarotPage_loading (JBool true);;
  set TarotPage_reading JNull;;
  set TarotPage_flippedCards (JArr []);;
  try_finally
    (try_catch
       (res <- fetch {| url := API_URL +++ "/api/tarot/draw";
                        method := "POST";
                        headers := [content_type_json; bearer token];
                        body_of :=
                          JsonBody (JObj [field "spread_type" (JStr spreadType);
                                          field "question" (JStr question)]) |};;
        if negb (ok res) then throw "Reading failed" else
        data <- json res;;
        set TarotPage_reading data;;
        cards <- get data "cards";;
        forEach cards (fun _ idx =>
          emit (SetTimeout (flip_card idx) (500 + idx * 800))))
       (fun _ => emit (ToastError "The cards are not aligned. Try again.")))
    (set TarotPage_loading (JBool false)).
End Closure.

(** One tarot card of the cards display. *)
Record card_element := {
  key : nat; flipped : bool; reversed : bool; card_id : jsval;
  card_name : jsval
}.

(** [flippedCards.includes(idx)] *)
Definition includes (flippedCards : jsval) (idx : nat) : bool :=
  match flippedCards with
  | JArr l =>
      existsb (fun x => match x with
                        | JNum z => Z.eqb z (Z.of_nat idx)
                        | _ => false
                        end) l
  | _ => false
  end.

(** A value that React renders as a child: an object is refused ("Objects
    are not valid as a React child"), also inside an array. *)
Fixpoint valid_child (v : jsval) : bool :=
  match v with
  | JObj _ => false
  | JArr l => forallb valid_child l
  | _ => true
  end.

Fixpoint map_cards (flippedCards : jsval) (idx : nat) (l : list jsval)
  : option (list card_element) :=
  match l with
  | [] => Some []
  | card :: l' =>
      match card with
      | JUndefined | JNull => None     (* card.reversed throws *)
      | _ =>
          (* {card.id} and {card.name} are rendered as children *)
          if valid_child (opt_get card "id")
             && valid_child (opt_get card "name")
          then
            option_map
              (cons {| key := idx;
                       flipped := includes flippedCards idx;
                       reversed := truthy (opt_get card "reversed");
                       card_id := opt_get card "id";
                       card_name := opt_get card "name" |})
              (map_cards flippedCards (S idx) l')
          else None
      end
  end.

(** [reading.cards.map((card, idx) => ...)] of the cards display, shown
    when [reading] is set; [None] when rendering throws. *)
Definition cards_display (reading flippedCards : jsval)
  : option (list card_element) :=
  match opt_get reading "cards" with
  | JArr l => map_cards flippedCards 0 l
  | _ => None
  end.
End TarotPage.

(** The base64 alphabet. *)
Definition base64_alphabet : jsstring :=
  "ABCDEFGHIJKLMNOPQRSTUVWXYZabcdefghijklmnopqrstuvwxyz0123456789+/".

Definition base64_char (i : N) : N := nth (N.to_nat i) base64_alphabet 61%N.

(** The base64 text of a sequence of bytes: four characters for every three
    bytes, the last group padded with [=]. *)
Fixpoint base64_encode (bytes : list N) : jsstring :=
  match bytes with
  | [] => []
  | [a] =>
      [base64_char (a / 4); base64_char (a mod 4 * 16); 61; 61]%N
  | [a; b] =>
      [base64_char (a / 4); base64_char (a mod 4 * 16 + b / 16);
       base64_char (b mod 16 * 4); 61]%N
  | a :: b :: c :: rest =>
      (base64_char (a / 4) :: base64_char (a mod 4 * 16 + b / 16)
       :: base64_char (b mod 16 * 4 + c / 64) :: base64_char (c mod 64)
       :: base64_encode rest)%N
  end.

(** [reader.result] after [reader.readAsDataURL(blob)]. *)
Definition readAsDataURL (b : blob) : jsstring :=
  "data:"
  +++ (if is_empty (blob_type b) then lit "application/octet-stream"
       else blob_type b)
  +++ ";base64," +++ base64_encode (blob_bytes b).

(** [s.split(sep)] for a separator of one code unit. *)
Fixpoint split (sep : N) (s : jsstring) : list jsstring :=
  match s with
  | [] => [[]]
  | ch :: s' =>
      if (ch =? sep)%N then [] :: split sep s'
      else match split sep s' with
           | piece :: pieces => (ch :: piece) :: pieces
           | [] => [[ch]]
           end
  end.

(** [pieces[i]] *)
Definition item (pieces : list jsstring) (i : nat) : jsval :=
  match nth_error pieces i with
  | Some piece => JStr piece
  | None => JUndefined
  end.

Module BioScanner.
Section Closure.
Variable API_URL : jsstring.
Variable token : jsval.

(** [reader.onloadend] of [startScan]: [base64] is the recording, read as
    a data URL and cut after the comma by [onstop]. *)
Definition onloadend (base64 : jsval) : M unit :=
  set BioScanner_loading (JBool true);;
  try_finally
    (try_catch
       (res <- fetch {| url := API_URL +++ "/api/bio/scan";
                        method := "POST";
                        headers := [content_type_json; bearer token];
                        body_of :=
                          JsonBody (JObj [field "audio_base64" base64]) |};;
        if negb (ok res) then throw "Scan failed" else
        data <- json res;;
        set BioScanner_result data)
       (fun _ => emit (ToastError "Bio-scan analysis failed")))
    (set BioScanner_loading (JBool false)).

(** [mediaRecorder.onstop] of [startScan]: the recorded [chunks] are read
    as a data URL, whose part after the comma is handed to [onloadend]. *)
Definition onstop (chunks : list N) : M unit :=
  let blob := {| blob_type := "audio/webm"; blob_bytes := chunks |} in
  let result := readAsDataURL blob in
  let base64 := item (split 44 result) 1 in
  onloadend base64.
End Closure.
End BioScanner.

(** [[x, ...v]] *)
Definition cons_spread (x v : jsval) : M jsval :=
  match v with
  | JArr l => ret (JArr (x :: l))
  | JStr s => ret (JArr (x :: map (fun c => JStr [c]) s))
  | _ => throw (to_string v +++ " is not iterable")
  end.

Module Community.
Section Closure.
Variable API_URL : jsstring.
Variable token : jsval.
Variable posts : jsval.
Variable newPost category : jsstring.

Definition fetchPosts : M unit :=
  try_finally
    (try_catch
       (res <- fetch {| url := API_URL +++ "/api/community/feed";
                        method := "GET";
                        headers := [];
                        body_of := NoBody |};;
        if ok res then
          data <- json res;;
          posts' <- get data "posts";;
          set Community_posts (js_or posts' (JArr []))
        else ret tt)
       (fun err => emit (ConsoleError err)))
    (set Community_loading (JBool false)).

Definition createPost : M unit :=
  if is_empty (trim newPost) then ret tt else
  try_catch
    (res <- fetch {| url := API_URL +++ "/api/community/post";
                     method := "POST";
                     headers := [content_type_json; bearer token];
                     body_of :=
                       JsonBody (JObj [field "content" (JStr newPost);
                                       field "category" (JStr category)]) |};;
     if ok res then
       post <- json res;;
       posts' <- cons_spread post posts;;
       set Community_posts posts';;
       set Community_newPost (JStr "");;
       emit (ToastSuccess "Your insight has been shared")
     else ret tt)
    (fun _ => emit (ToastError "Failed to share")).
End Closure.
End Community.

Module PremiumPage.
Section Closure.
Variable API_URL : jsstring.
Variable user token : jsval.
(** [searchParams.get('session_id')] *)
Variable sessionId : jsval.
(** [window.location.origin] *)
Variable origin : jsstring.

Definition checkPaymentStatus : M unit :=
  set PremiumPage_loading (JBool true);;
  try_finally
    (try_catch
       (res <- fetch {| url := API_URL +++ "/api/payments/status/"
                               +++ to_string sessionId;
                        method := "GET";
                        headers := [bearer token];
                        body_of := NoBody |};;
        if ok res then
          data <- json res;;
          payment_status <- get data "payment_status";;
          if strict_eq_str payment_status "paid" then
            emit (ToastSuccess "Welcome to Premium! Your journey expands.");;
            set AuthProvider_user (spread_with user "is_premium" (JBool true))
          else ret tt
        else ret tt)
       (fun err => emit (ConsoleError err)))
    (set PremiumPage_loading (JBool false)).

(** [useEffect(() => { if (sessionId) checkPaymentStatus(); }, [sessionId])] *)
Definition effect : M unit :=
  when (truthy sessionId) (detached checkPaymentStatus).

Definition startCheckout : M unit :=
  set PremiumPage_loading (JBool true);;
  try_catch
    (res <- fetch {| url := API_URL +++ "/api/payments/checkout";
                     method := "POST";
                     headers := [content_type_json; bearer token];
                     body_of :=
                       JsonBody
                         (JObj [field "package_id" (JStr "premium_monthly");
                                field "origin_url" (JStr origin)]) |};;
     if negb (ok res) then throw "Checkout failed" else
     data <- json res;;
     href <- get data "url";;
     emit (LocationAssign href))
    (fun _ =>
       emit (ToastError "Payment initialization failed");;
       set PremiumPage_loading (JBool false)).
End Closure.
End PremiumPage.

Module PaymentSuccess.
Section Closure.
Variable API_URL : jsstring.
Variable user token : jsval.
(** [searchParams.get('session_id')] *)
Variable sessionId : jsval.

(** One invocation; the next one is the callback of the timer it sets. *)
Definition pollPaymentStatus (attempts : nat) : M unit :=
  if 5 <=? attempts then
    set PaymentSuccess_status (JStr "timeout")
  else
  try_catch
    (res <- fetch {| url := API_URL +++ "/api/payments/status/"
                            +++ to_string sessionId;
                     method := "GET";
                     headers := [bearer token];
                     body_of := NoBody |};;
     returned <-
       (if ok res then
          data <- json res;;
          payment_status <- get data "payment_status";;
          if strict_eq_str payment_status "paid" then
            set PaymentSuccess_status (JStr "success");;
            set AuthProvider_user (spread_with user "is_premium" (JBool true));;
            ret true
          else ret false
        else ret false);;
     if returned : bool then ret tt else
     emit (SetTimeout (call_pollPaymentStatus (attempts + 1)) 2000))
    (fun _ =>
       emit (SetTimeout (call_pollPaymentStatus (attempts + 1)) 2000)).

(** [useEffect(() => { if (sessionId) pollPaymentStatus(); }, [sessionId])]:
    [attempts] defaults to 0. *)
Definition effect : M unit :=
  when (truthy sessionId) (detached (pollPaymentStatus 0)).
End Closure.
End PaymentSuccess.

Module DatabasePage.
Section Closure.
Variable API_URL : jsstring.
(** The browser's [encodeURIComponent]: the encoded text, or the message of
    the URIError it throws, as it does for a lone surrogate. *)
Variable encodeURIComponent : jsstring -> jsstring + jsstring.
Variable query category : jsstring.

Definition search : M unit :=
  if is_empty (trim query) then ret tt else
  set DatabasePage_loading (JBool true);;
  try_finally
    (try_catch
       (encoded <- match encodeURIComponent query with
                   | inl text => ret text
                   | inr message => throw message
                   end;;
        res <- fetch {| url := API_URL +++ "/api/database/search?query="
                               +++ encoded
                               +++ "&category=" +++ category;
                        method := "GET";
                        headers := [];
                        body_of := NoBody |};;
        if ok res then
          data <- json res;;
          results <- get data "results";;
          set DatabasePage_results (js_or results (JArr []))
        else ret tt)
       (fun _ => emit (ToastError "Search failed")))
    (set DatabasePage_loading (JBool false)).
End Closure.
End DatabasePage.

(** ** Routing *)

Module Router.
(** The page components. *)
Inductive component :=
| AuthPage | Dashboard | VoiceOracle | TarotPage | BioScanner | Community
| Profile | PremiumPage | DatabasePage | PaymentSuccess | PaymentCancel.

(** The [element] prop of a [<Route>]. *)
Inductive element :=
| El (c : component)                       (* <C /> *)
| Protected (children : element)           (* <ProtectedRoute>...</ProtectedRoute> *)
| NavigateTo (to : jsstring) (replace : bool).

(** What is rendered. *)
Inductive view :=
| Spinner
| Redirect (to : jsstring) (replace : bool)  (* <Navigate to=... replace /> *)
| Navigation
| Page (c : component)
| Fragment (children : list view).

(** [ProtectedRoute], with [user] and [loading] from [useAuth()]. *)
Definition ProtectedRoute (user : jsval) (loading : bool) (children : view)
  : view :=
  if loading then Spinner
  else if negb (truthy user) then Redirect "/auth" true
  else Fragment [Navigation; children].

Fixpoint render (user : jsval) (loading : bool) (e : element) : view :=
  match e with
  | El c => Page c
  | Protected children =>
      ProtectedRoute user loading (render user loading children)
  | NavigateTo to replace => Redirect to replace
  end.

(** The [<Routes>] table of [App]. *)
Definition routes : list (jsstring * element) :=
  [ (lit "/auth", El AuthPage);
    (lit "/dashboard", Protected (El Dashboard));
    (lit "/oracle", Protected (El VoiceOracle));
    (lit "/tarot", Protected (El TarotPage));
    (lit "/bio-scan", Protected (El BioScanner));
    (lit "/community", Protected (El Community));
    (lit "/profile", Protected (El Profile));
    (lit "/premium", Protected (El PremiumPage));
    (lit "/database", Protected (El DatabasePage));
    (lit "/payment/success", Protected (El PaymentSuccess));
    (lit "/payment/cancel", Protected (El PaymentCancel));
    (lit "/", NavigateTo "/dashboard" true);
    (lit "*", NavigateTo "/dashboard" true) ].

(** Lower case of an ASCII letter. *)
Definition lower (ch : N) : N :=
  if ((65 <=? ch) && (ch <=? 90))%N then (ch + 32)%N else ch.

Fixpoint drop_slashes (s : jsstring) : jsstring :=
  match s with
  | ch :: s' => if (ch =? 47)%N then drop_slashes s' else s
  | [] => []
  end.

(** A path as React Router compares it: without its trailing slashes and
    without regard to the case of its letters. *)
Definition normalize (path : jsstring) : jsstring :=
  map lower (rev (drop_slashes (rev path))).

(** The route path matches the pathname of the location; [*] matches every
    pathname. *)
Definition matches (pattern pathname : jsstring) : bool :=
  jsstring_eqb pattern "*"
  || jsstring_eqb (normalize pattern) (normalize pathname).

(** The element of the route that [<Routes>] renders for a pathname.  The
    routes are ranked, the [*] route last; as no two other routes match the
    same pathname, the first route of the table that matches is the one. *)
Definition match_route (path : jsstring) : element :=
  match find (fun r => matches (fst r) path) routes with
  | Some r => snd r
  | None => NavigateTo "/dashboard" true
  end.

(** Whether a rendered view shows the navigation bar or any page. *)
Fixpoint shows_content (v : view) : bool :=
  match v with
  | Navigation | Page _ => true
  | Spinner | Redirect _ _ => false
  | Fragment l => existsb shows_content l
  end.
End Router.

(** ** The application *)

Module App.
(** Everything the functions of the components close over or receive. *)
Record closure := {
  API_URL : jsstring;
  encodeURIComponent : jsstring -> jsstring + jsstring;
  origin : jsstring;
  user : jsval;
  token : jsval;
  sessionId : jsval;
  isLogin : bool;
  formData : jsval;
  audioEnabled : bool;
  text : jsstring;
  chunks : list N;
  spreadType : jsstring;
  question : jsstring;
  posts : jsval;
  newPost : jsstring;
  category : jsstring;
  query : jsstring;
  db_category : jsstring;
  attempts : nat
}.

(** The functions of the source that send requests or write state. *)
Inductive operation :=
| fetchUser | login | register | logout | handleSubmit
| Dashboard_fetchSoulprint
| sendMessage | startRecording_onstop
| drawCards | flip (idx : nat)
| startScan_onstop
| fetchPosts | createPost
| Profile_fetchSoulprint
| checkPaymentStatus | startCheckout
| pollPaymentStatus
| search.

Definition discard {A} (m : M A) : M unit := m;; ret tt.

Definition perform (c : closure) (op : operation) : M unit :=
  match op with
  | fetchUser => AuthProvider.fetchUser (API_URL c) (token c)
  | login =>
      discard (AuthProvider.login (API_URL c)
                 (opt_get (formData c) "email")
                 (opt_get (formData c) "password"))
  | register => discard (AuthProvider.register (API_URL c) (formData c))
  | logout => AuthProvider.logout
  | handleSubmit => AuthPage.handleSubmit (API_URL c) (isLogin c) (formData c)
  | Dashboard_fetchSoulprint => Dashboard.fetchSoulprint (API_URL c) (token c)
  | sendMessage =>
      VoiceOracle.sendMessage (API_URL c) (token c) (audioEnabled c) (text c)
  | startRecording_onstop =>
      VoiceOracle.onstop (API_URL c) (token c) (audioEnabled c) (chunks c)
  | drawCards =>
      TarotPage.drawCards (API_URL c) (user c) (token c) (spreadType c)
        (question c)
  | flip idx =>
      emit (Update TarotPage_flippedCards (Append (JNum (Z.of_nat idx))))
  | startScan_onstop =>
      BioScanner.onstop (API_URL c) (token c) (chunks c)
  | fetchPosts => Community.fetchPosts (API_URL c)
  | createPost =>
      Community.createPost (API_URL c) (token c) (posts c) (newPost c)
        (category c)
  | Profile_fetchSoulprint => Profile.fetchSoulprint (API_URL c) (token c)
  | checkPaymentStatus =>
      PremiumPage.checkPaymentStatus (API_URL c) (user c) (token c)
        (sessionId c)
  | startCheckout =>
      PremiumPage.startCheckout (API_URL c) (token c) (origin c)
  | pollPaymentStatus =>
      PaymentSuccess.pollPaymentStatus (API_URL c) (user c) (token c)
        (sessionId c) (attempts c)
  | search =>
      DatabasePage.search (API_URL c) (encodeURIComponent c) (query c)
        (db_category c)
  end.

(** The callbacks of the timers. *)
Definition exec (c : closure) (cb : callback) : M unit :=
  match cb with
  | call_pollPaymentStatus attempts' =>
      PaymentSuccess.pollPaymentStatus (API_URL c) (user c) (token c)
        (sessionId c) attempts'
  | flip_card idx => perform c (flip idx)
  end.

(** A polling run of [PaymentSuccess]: [pollPaymentStatus()] and the
    calls made by its timers. *)
Definition polling_run (c : closure) (fuel : nat) (srv : server)
  : option (list (nat * event)) :=
  run_to_completion (exec c) fuel
    (PaymentSuccess.pollPaymentStatus (API_URL c) (user c) (token c)
       (sessionId c) 0) srv.
End App.

(** * Verification *)

Arguments lit : simpl never.
Arguments cat : simpl never.
Arguments to_string : simpl never.
Arguments spread_with : simpl never.

(** ** The payment-status poll of PaymentSuccess *)

(** The reply is a successful response whose [payment_status] is ['paid']. *)
Definition reports_paid (r : reply) : bool :=
  match r with
  | Response true (inl data) =>
      strict_eq_str (opt_get data "payment_status") "paid"
  | _ => false
  end.

Section Polling.
Variable c : App.closure.
Variable srv : server.

Definition status_request : request :=
  {| url := App.API_URL c +++ "/api/payments/status/"
            +++ to_string (App.sessionId c);
     method := "GET";
     headers := [bearer (App.token c)];
     body_of := NoBody |}.

Definition premium_user : jsval :=
  spread_with (App.user c) "is_premium" (JBool true).

Definition poll (attempts : nat) : M unit :=
  PaymentSuccess.pollPaymentStatus (App.API_URL c) (App.user c)
    (App.token c) (App.sessionId c) attempts.

Lemma poll_timeout a n :
  5 <= a ->
  poll a srv n = (Ret tt, n, [Update PaymentSuccess_status (SetTo (JStr "timeout"))]).
Proof.
  intros H. unfold poll, PaymentSuccess.pollPaymentStatus.
  apply Nat.leb_le in H. rewrite H. reflexivity.
Qed.

Lemma poll_paid a n :
  a < 5 -> reports_paid (srv n) = true ->
  poll a srv n =
    (Ret tt, S n,
     [Fetch status_request;
      Update PaymentSuccess_status (SetTo (JStr "success"));
      Update AuthProvider_user (SetTo premium_user)]).
Proof.
  intros H Hp. unfold poll, PaymentSuccess.pollPaymentStatus.
  apply Nat.leb_gt in H. rewrite H.
  unfold try_catch, bind, fetch, reports_paid in *.
  destruct (srv n) as [e|[] [data|e]]; try discriminate.
  destruct data; try discriminate; simpl in *; rewrite Hp; reflexivity.
Qed.

Lemma poll_retry a n :
  a < 5 -> reports_paid (srv n) = false ->
  poll a srv n =
    (Ret tt, S n,
     [Fetch status_request; SetTimeout (call_pollPaymentStatus (a + 1)) 2000]).
Proof.
  intros H Hp. unfold poll, PaymentSuccess.pollPaymentStatus.
  apply Nat.leb_gt in H. rewrite H.
  unfold try_catch, bind, fetch, reports_paid in *.
  destruct (srv n) as [e|[] [data|e]]; try reflexivity.
  destruct data; simpl in *; try rewrite Hp; reflexivity.
Qed.

(** The effects of the calls from [a] on, [k] attempts being left. *)
Fixpoint poll_trace (k a n t : nat) : list (nat * event) :=
  match k with
  | 0 => [(t, Update PaymentSuccess_status (SetTo (JStr "timeout")))]
  | S k' =>
      if reports_paid (srv n) then
        [(t, Fetch status_request);
         (t, Update PaymentSuccess_status (SetTo (JStr "success")));
         (t, Update AuthProvider_user (SetTo premium_user))]
      else
        (t, Fetch status_request)
        :: (t, SetTimeout (call_pollPaymentStatus (a + 1)) 2000)
        :: poll_trace k' (a + 1) (S n) (t + 2000)
  end.

Lemma event_loop_poll k : forall a n t fuel,
  a + k = 5 -> k < fuel ->
  event_loop (App.exec c) fuel srv n [(t, call_pollPaymentStatus a)]
  = Some (poll_trace k a n t).
Proof.
  induction k as [|k IH]; intros a n t fuel Ha Hf;
    (destruct fuel as [|fuel]; [lia|]); cbn [event_loop App.exec].
  - fold (poll a). rewrite poll_timeout by lia.
    cbn [schedule fold_left]. rewrite event_loop_nil. reflexivity.
  - fold (poll a). cbn [poll_trace].
    destruct (reports_paid (srv n)) eqn:Hp.
    + rewrite poll_paid by (auto; lia).
      cbn [schedule fold_left]. rewrite event_loop_nil. reflexivity.
    + rewrite poll_retry by (auto; lia).
      cbn [schedule fold_left insert_timer app uncaught stamp map].
      rewrite IH by lia. reflexivity.
Qed.

Lemma polling_run_trace fuel :
  5 <= fuel -> App.polling_run c fuel srv = Some (poll_trace 5 0 0 0).
Proof.
  intros Hf. unfold App.polling_run, run_to_completion. fold (poll 0).
  cbn [poll_trace]. destruct (reports_paid (srv 0)) eqn:Hp.
  - rewrite poll_paid by (auto; lia).
    cbn [schedule fold_left]. rewrite event_loop_nil. reflexivity.
  - rewrite poll_retry by (auto; lia).
    cbn [schedule fold_left insert_timer app uncaught stamp map].
    rewrite (event_loop_poll 4) by lia. reflexivity.
Qed.
End Polling.

Section PollingProperties.
Variable c : App.closure.
Variable srv : server.

Let trace := poll_trace c srv.

Lemma fetch_times_poll_trace k : forall a n t,
  fetch_times (trace k a n t) = [] \/
  exists l, fetch_times (trace k a n t) = t :: l.
Proof.
  destruct k; intros; cbn; [now left|].
  destruct (reports_paid (srv n)); right; eexists; reflexivity.
Qed.

Lemma poll_trace_fetches k : forall a n t,
  length (fetch_times (trace k a n t)) <= k.
Proof.
  induction k as [|k IH]; intros a n t; cbn; [lia|].
  destruct (reports_paid (srv n)); cbn; [lia|].
  specialize (IH (a + 1) (S n) (t + 2000)).
  unfold fetch_times in IH. lia.
Qed.

Lemma poll_trace_gaps k : forall a n t,
  Forall (eq 2000) (consecutive_gaps (fetch_times (trace k a n t))).
Proof.
  induction k as [|k IH]; intros a n t; cbn; [constructor|].
  destruct (reports_paid (srv n)); cbn; [constructor|].
  specialize (IH (a + 1) (S n) (t + 2000)).
  destruct (fetch_times_poll_trace k (a + 1) (S n) (t + 2000)) as [E|[l E]];
    unfold fetch_times in E, IH; rewrite E in *; cbn.
  - constructor.
  - constructor; [lia | exact IH].
Qed.

Lemma poll_trace_delays k : forall a n t,
  Forall (eq 2000) (timer_delays (trace k a n t)).
Proof.
  induction k as [|k IH]; intros a n t; cbn; [constructor|].
  destruct (reports_paid (srv n)); cbn; [constructor|].
  constructor; [reflexivity | apply IH].
Qed.

Lemma poll_trace_unpaid k : forall a n t,
  (forall i, i < k -> reports_paid (srv (n + i)) = false) ->
  length (fetch_times (trace k a n t)) = k /\
  last (map snd (trace k a n t)) PreventDefault
    = Update PaymentSuccess_status (SetTo (JStr "timeout")) /\
  forall st, commit (map snd (trace k a n t)) st PaymentSuccess_status
             = JStr "timeout".
Proof.
  induction k as [|k IH]; intros a n t H.
  - cbn. repeat split.
  - assert (Hn : reports_paid (srv n) = false).
    { rewrite <- (Nat.add_0_r n). apply H. lia. }
    destruct (IH (a + 1) (S n) (t + 2000)) as (L & E & C).
    { intros i Hi. replace (S n + i) with (n + S i) by lia. apply H. lia. }
    unfold trace in *. cbn [poll_trace]. rewrite Hn.
    repeat split.
    + cbn. unfold fetch_times in L. now rewrite L.
    + cbn [map snd]. rewrite <- E.
      destruct (map snd (poll_trace c srv k (a + 1) (S n) (t + 2000))) eqn:El.
      * destruct k; cbn in El; [discriminate|].
        destruct (reports_paid (srv (S n))); discriminate.
      * reflexivity.
    + intros st. cbn [map snd commit fold_left apply_event].
      apply C.
Qed.

(** The first of the five replies reporting the payment as paid. *)
Definition first_paid_from (n k : nat) : option nat :=
  find (fun i => reports_paid (srv i)) (seq n k).

Lemma poll_trace_paid k : forall a n t,
  match first_paid_from n k with
  | Some j =>
      writes AuthProvider_user (map snd (trace k a n t))
        = [SetTo (premium_user c)] /\
      length (fetch_times (trace k a n t)) = S (j - n) /\
      last (map snd (trace k a n t)) PreventDefault
        = Update AuthProvider_user (SetTo (premium_user c))
  | None => writes AuthProvider_user (map snd (trace k a n t)) = []
  end.
Proof.
  unfold first_paid_from.
  induction k as [|k IH]; intros a n t; cbn; [reflexivity|].
  destruct (reports_paid (srv n)) eqn:Hp.
  - cbn. rewrite Nat.sub_diag. repeat split.
  - specialize (IH (a + 1) (S n) (t + 2000)).
    destruct (find _ (seq (S n) k)) as [j|] eqn:Hj.
    + destruct IH as (W & L & E).
      apply find_some in Hj as [Hin _]. apply in_seq in Hin.
      repeat split.
      * exact W.
      * cbn. unfold fetch_times in L. rewrite L. lia.
      * cbn [map snd]. rewrite <- E.
        destruct (map snd (trace k (a + 1) (S n) (t + 2000))) eqn:El;
          [discriminate W | reflexivity].
    + exact IH.
Qed.
End PollingProperties.

Definition example_closure : App.closure :=
  {| App.API_URL := "https://yky.example";
     App.encodeURIComponent := fun s => inl s;
     App.origin := "https://yky.example";
     App.user := JObj [field "id" (JStr "u1"); field "is_premium" (JBool false)];
     App.token := JStr "tok";
     App.sessionId := JStr "cs_test_1";
     App.isLogin := true;
     App.formData := JObj [field "email" (JStr "a@b.c");
                           field "password" (JStr "pw");
                           field "name" (JStr "");
                           field "birth_date" (JStr "")];
     App.audioEnabled := true;
     App.text := "   ";
     App.chunks := [];
     App.spreadType := "celtic_cross";
     App.question := "";
     App.posts := JArr [];
     App.newPost := " ";
     App.category := "general";
     App.query := "reishi";
     App.db_category := "all";
     App.attempts := 0 |}.

(** The closure of a later render, in which the auth context holds [u]. *)
Definition with_user (c : App.closure) (u : jsval) : App.closure :=
  {| App.API_URL := App.API_URL c;
     App.encodeURIComponent := App.encodeURIComponent c;
     App.origin := App.origin c;
     App.user := u;
     App.token := App.token c;
     App.sessionId := App.sessionId c;
     App.isLogin := App.isLogin c;
     App.formData := App.formData c;
     App.audioEnabled := App.audioEnabled c;
     App.text := App.text c;
     App.chunks := App.chunks c;
     App.spreadType := App.spreadType c;
     App.question := App.question c;
     App.posts := App.posts c;
     App.newPost := App.newPost c;
     App.category := App.category c;
     App.query := App.query c;
     App.db_category := App.db_category c;
     App.attempts := App.attempts c |}.

Definition premium_closure : App.closure :=
  with_user example_closure (premium_user example_closure).

Definition pending_server : server :=
  fun _ => Response true (inl (JObj [field "payment_status" (JStr "pending")])).

(** C1. A polling run of [PaymentSuccess] ends, sends at most 5 status
    requests, sets only timers of 2000 ms, so that two consecutive requests
    are 2000 ms of timer delay apart, and, when none of the five replies
    reports the payment as paid, sends all 5 requests and ends by setting
    the displayed status to ['timeout']. *)
Theorem poll_fixed_count_constant_delay (c : App.closure) (srv : server)
    (fuel : nat) :
  5 <= fuel ->
  exists tr,
    App.polling_run c fuel srv = Some tr /\
    length (fetch_times tr) <= 5 /\
    Forall (eq 2000) (timer_delays tr) /\
    Forall (eq 2000) (consecutive_gaps (fetch_times tr)) /\
    ((forall i, i < 5 -> reports_paid (srv i) = false) ->
     length (fetch_times tr) = 5 /\
     last (map snd tr) PreventDefault
       = Update PaymentSuccess_status (SetTo (JStr "timeout")) /\
     forall st, commit (map snd tr) st PaymentSuccess_status = JStr "timeout").
Proof.
  intros Hf. exists (poll_trace c srv 5 0 0 0).
  split; [now apply polling_run_trace|].
  split; [apply poll_trace_fetches|].
  split; [apply poll_trace_delays|].
  split; [apply poll_trace_gaps|].
  intros H. apply poll_trace_unpaid. exact H.
Qed.

Lemma poll_fixed_count_constant_delay_witness :
  exists tr,
    App.polling_run example_closure 5 pending_server = Some tr /\
    length (fetch_times tr) <= 5 /\
    Forall (eq 2000) (timer_delays tr) /\
    Forall (eq 2000) (consecutive_gaps (fetch_times tr)) /\
    ((forall i, i < 5 -> reports_paid (pending_server i) = false) ->
     length (fetch_times tr) = 5 /\
     last (map snd tr) PreventDefault
       = Update PaymentSuccess_status (SetTo (JStr "timeout")) /\
     forall st, commit (map snd tr) st PaymentSuccess_status = JStr "timeout").
Proof.
  apply (poll_fixed_count_constant_delay example_closure pending_server 5).
  apply le_n.
Defined.

(** The body of the reply is JSON whose [payment_status] is ['paid'],
    whether the response is ok or not. *)
Definition says_paid (r : reply) : bool :=
  match r with
  | Response _ (inl data) =>
      strict_eq_str (opt_get data "payment_status") "paid"
  | NetworkError _ | Response _ (inr _) => false
  end.

(** The claim of C2 as the specification words it: the first response whose
    [payment_status] equals ['paid'] causes the one call of [setUser] and
    stops the poll. *)
Definition paid_response_sets_premium : Prop :=
  forall (c : App.closure) (srv : server) (fuel : nat)
         (tr : list (nat * event)),
    5 <= fuel ->
    App.polling_run c fuel srv = Some tr ->
    match find (fun i => says_paid (srv i)) (seq 0 5) with
    | Some j =>
        writes AuthProvider_user (map snd tr) = [SetTo (premium_user c)] /\
        length (fetch_times tr) = S j
    | None => writes AuthProvider_user (map snd tr) = []
    end.

(** A backend that answers every status request with a response that is not
    ok, and whose body says ['paid']. *)
Definition refusing_server : server :=
  fun _ => Response false (inl (JObj [field "payment_status" (JStr "paid")])).

(** C2, as stated, fails: a response that is not ok is not read, so that a
    body saying ['paid'] in it neither sets the premium flag nor stops the
    poll; all five requests are sent and [setUser] is never called. *)
Lemma refused_paid_reply_is_retried : ~ paid_response_sets_premium.
Proof.
  intros H.
  specialize (H example_closure refusing_server 5
                (poll_trace example_closure refusing_server 5 0 0 0)
                (le_n 5)
                (polling_run_trace example_closure refusing_server 5 (le_n 5))).
  cbn in H. destruct H as [H _]. discriminate H.
Qed.

(** C2, amended: the response has to be ok.  In a polling run of
    [PaymentSuccess], when one of the five replies reports the payment as
    paid, that is, is an ok response with a JSON body whose [payment_status]
    is ['paid'], [setUser] is called exactly once, with the user marked
    [is_premium: true]; this call is the last effect of the run and no
    request follows the first such reply.  When none of the five replies is
    one, [setUser] is not called. *)
Theorem poll_sets_premium_once (c : App.closure) (srv : server) (fuel : nat) :
  5 <= fuel ->
  exists tr,
    App.polling_run c fuel srv = Some tr /\
    opt_get (premium_user c) "is_premium" = JBool true /\
    match first_paid_from srv 0 5 with
    | Some j =>
        writes AuthProvider_user (map snd tr) = [SetTo (premium_user c)] /\
        length (fetch_times tr) = S j /\
        last (map snd tr) PreventDefault
          = Update AuthProvider_user (SetTo (premium_user c))
    | None => writes AuthProvider_user (map snd tr) = []
    end.
Proof.
  intros Hf. exists (poll_trace c srv 5 0 0 0).
  split; [now apply polling_run_trace|].
  split; [apply opt_get_spread_same|].
  pose proof (poll_trace_paid c srv 5 0 0 0) as H.
  destruct (first_paid_from srv 0 5); [|exact H].
  now rewrite Nat.sub_0_r in H.
Qed.

Definition paying_server (k : nat) : server :=
  fun i =>
    if i =? k then
      Response true (inl (JObj [field "payment_status" (JStr "paid")]))
    else pending_server i.

Lemma poll_sets_premium_once_witness :
  exists tr,
    App.polling_run example_closure 5 (paying_server 2) = Some tr /\
    opt_get (premium_user example_closure) "is_premium" = JBool true /\
    match first_paid_from (paying_server 2) 0 5 with
    | Some j =>
        writes AuthProvider_user (map snd tr)
          = [SetTo (premium_user example_closure)] /\
        length (fetch_times tr) = S j /\
        last (map snd tr) PreventDefault
          = Update AuthProvider_user (SetTo (premium_user example_closure))
    | None => writes AuthProvider_user (map snd tr) = []
    end.
Proof.
  apply (poll_sets_premium_once example_closure (paying_server 2) 5).
  apply le_n.
Defined.

(** ** Effects of all operations *)

Lemma emits_forEach P v f :
  (forall x i, emits P (f x i)) -> emits P (forEach v f).
Proof.
  intros Hf. unfold forEach.
  destruct v; try apply emits_throw.
  generalize 0. induction items as [|x l IH]; intros i; simpl.
  - apply emits_ret.
  - apply emits_bind; [apply Hf | intros _; apply IH].
Qed.

Lemma emits_cons_spread P x v : emits P (cons_spread x v).
Proof.
  unfold cons_spread. destruct v; first [apply emits_ret | apply emits_throw].
Qed.

(** Decomposes a goal [emits P m] along the structure of [m]; [side] proves
    [P] of the single effects. *)
Ltac emits_step side :=
  first
    [ apply emits_ret | apply emits_throw | apply emits_json | apply emits_get
    | apply emits_cons_spread
    | apply emits_bind; [|intros ?]
    | apply emits_try_finally
    | apply emits_try_catch; [|intros ?]
    | apply emits_when
    | apply emits_if
    | apply emits_forEach; intros ? ?
    | apply emits_emit; side
    | apply emits_fetch; side
    | match goal with
      | |- emits _ (match ?x with _ => _ end) => destruct x
      end ].

Ltac emits_all side :=
  cbv beta zeta
      delta [set detached App.discard VoiceOracle.playAudio
             AuthProvider.fetchUser AuthProvider.login AuthProvider.register
             AuthProvider.logout AuthPage.handleSubmit
             Dashboard.fetchSoulprint Profile.fetchSoulprint
             VoiceOracle.sendMessage VoiceOracle.onstop TarotPage.drawCards
             BioScanner.onloadend BioScanner.onstop Community.fetchPosts
             Community.createPost
             PremiumPage.checkPaymentStatus PremiumPage.startCheckout
             PaymentSuccess.pollPaymentStatus DatabasePage.search];
  repeat emits_step side.

(** ** The premium flag *)

Definition premium (st : store) : jsval :=
  opt_get (st AuthProvider_user) "is_premium".

(** The payment-status checks. *)
Definition payment_check (op : App.operation) : bool :=
  match op with
  | App.checkPaymentStatus | App.pollPaymentStatus => true
  | _ => false
  end.

(** The operations of [AuthProvider], and [handleSubmit], which calls
    [login] or [register]. *)
Definition auth_operation (op : App.operation) : bool :=
  match op with
  | App.fetchUser | App.login | App.register | App.logout
  | App.handleSubmit => true
  | _ => false
  end.

Definition writes_user (e : event) : bool :=
  match e with
  | Update AuthProvider_user _ => true
  | _ => false
  end.

Definition premium_store : store :=
  fun h =>
    match h with
    | AuthProvider_user =>
        JObj [field "id" (JStr "u1"); field "is_premium" (JBool true)]
    | _ => JNull
    end.

Definition login_server : server :=
  fun _ =>
    Response true
      (inl (JObj [field "token" (JStr "tok2");
                  field "user" (JObj [field "id" (JStr "u2");
                                      field "is_premium" (JBool false)])])).

Lemma other_operations_keep_user (c : App.closure) (op : App.operation) :
  payment_check op = false -> auth_operation op = false ->
  emits (fun e => writes_user e = false) (App.perform c op).
Proof.
  destruct op; simpl; intros Hp Ha; try discriminate;
    emits_all ltac:(reflexivity).
Qed.

Lemma writes_user_none tr :
  Forall (fun e => writes_user e = false) tr -> writes AuthProvider_user tr = [].
Proof.
  induction 1 as [|e tr He _ IH]; [reflexivity|].
  unfold writes in *. cbn [flat_map]. rewrite IH.
  destruct e; try reflexivity.
  destruct h; try reflexivity. discriminate He.
Qed.

Lemma checkPaymentStatus_writes (c : App.closure) (srv : server) (n : nat) :
  writes AuthProvider_user
    (trace_of (App.perform c App.checkPaymentStatus srv n))
  = if reports_paid (srv n) then [SetTo (premium_user c)] else [].
Proof.
  unfold App.perform, PremiumPage.checkPaymentStatus, try_finally, try_catch,
    bind, fetch, reports_paid, set, emit, trace_of.
  destruct (srv n) as [e|[] [data|e]]; try reflexivity.
  destruct data; try reflexivity.
  cbn. destruct (strict_eq_str _ _); reflexivity.
Qed.

Lemma pollPaymentStatus_writes (c : App.closure) (srv : server) (n : nat) :
  writes AuthProvider_user
    (trace_of (App.perform c App.pollPaymentStatus srv n))
  = if (App.attempts c <? 5) && reports_paid (srv n)
    then [SetTo (premium_user c)] else [].
Proof.
  cbn [App.perform]. fold (poll c (App.attempts c)).
  destruct (App.attempts c <? 5) eqn:Ha.
  - apply Nat.ltb_lt in Ha. destruct (reports_paid (srv n)) eqn:Hp.
    + rewrite poll_paid by assumption. reflexivity.
    + rewrite poll_retry by assumption. reflexivity.
  - apply Nat.ltb_ge in Ha. rewrite poll_timeout by assumption. reflexivity.
Qed.

(** Unfolds an operation of [AuthProvider] down to its effects. *)
Ltac run_op :=
  cbv beta iota zeta
      delta [App.perform App.discard AuthPage.handleSubmit AuthProvider.login
             AuthProvider.register AuthProvider.fetchUser AuthProvider.logout
             try_finally try_catch bind fetch set emit trace_of get json ok
             ret throw when detached fst snd].

Lemma auth_operation_writes (c : App.closure) (op : App.operation)
    (srv : server) (n : nat) (u : updater) :
  auth_operation op = true ->
  In u (writes AuthProvider_user (trace_of (App.perform c op srv n))) ->
  u = SetTo JNull \/
  exists ok data,
    srv n = Response ok (inl data) /\
    (u = SetTo data \/ u = SetTo (opt_get data "user")).
Proof.
  intros Ha.
  destruct op; try discriminate Ha; clear Ha; run_op;
    try (destruct (App.isLogin c));
    try (destruct (App.formData c));
    run_op;
    try (cbn; tauto);
    (destruct (srv n) as [e|[] [data|e]] eqn:Hs; run_op; try (cbn; tauto);
     try (destruct data; run_op; try (cbn; tauto));
     try (destruct (truthy _); run_op; try (cbn; tauto)));
    cbn; intros [<-|[]]; eauto 6.
Qed.

(** The claim of C3 as the specification words it: no operation other than
    the payment-status checks changes [user.is_premium]. *)
Definition premium_changed_only_by_payment_checks : Prop :=
  forall (c : App.closure) (op : App.operation) (srv : server) (st : store),
    payment_check op = false ->
    premium (commit (run (App.perform c op) srv) st) = premium st.

(** C3, as stated, fails: [login] replaces the user record by the one of the
    response, here turning [is_premium] from [true] to [false]. *)
Lemma login_changes_premium_flag : ~ premium_changed_only_by_payment_checks.
Proof.
  intros H.
  specialize (H example_closure App.login login_server premium_store eq_refl).
  vm_compute in H. discriminate H.
Qed.

(** C3, amended.  An operation that is neither a payment-status check nor an
    authentication operation never writes the user record.  Each
    payment-status check writes it exactly when the reply is a successful
    response with [payment_status] ['paid'], and then writes the captured
    user with [is_premium] set to [true] and its other properties kept.  An
    authentication operation only writes [null] or the record found in the
    response. *)
Theorem premium_flag_writers (c : App.closure) (op : App.operation)
    (srv : server) (n : nat) :
  let tr := trace_of (App.perform c op srv n) in
  (payment_check op = false -> auth_operation op = false ->
   writes AuthProvider_user tr = []) /\
  (op = App.checkPaymentStatus ->
   writes AuthProvider_user tr
   = if reports_paid (srv n) then [SetTo (premium_user c)] else []) /\
  (op = App.pollPaymentStatus ->
   writes AuthProvider_user tr
   = if (App.attempts c <? 5) && reports_paid (srv n)
     then [SetTo (premium_user c)] else []) /\
  (auth_operation op = true ->
   forall u, In u (writes AuthProvider_user tr) ->
     u = SetTo JNull \/
     exists ok data,
       srv n = Response ok (inl data) /\
       (u = SetTo data \/ u = SetTo (opt_get data "user"))) /\
  opt_get (premium_user c) "is_premium" = JBool true /\
  (forall k, k <> lit "is_premium" ->
     opt_get (premium_user c) k = opt_get (JObj (own_props (App.user c))) k).
Proof.
  cbv zeta. repeat split.
  - intros Hp Ha. apply writes_user_none.
    apply (other_operations_keep_user c op Hp Ha).
  - intros ->. apply checkPaymentStatus_writes.
  - intros ->. apply pollPaymentStatus_writes.
  - intros Ha u. now apply auth_operation_writes.
  - apply opt_get_spread_same.
  - intros k Hk. now apply opt_get_spread_other.
Qed.

Lemma premium_flag_writers_witness :
  writes AuthProvider_user
    (trace_of (App.perform example_closure App.checkPaymentStatus
                 (paying_server 0) 0))
  = [SetTo (premium_user example_closure)].
Proof.
  exact (proj1 (proj2 (premium_flag_writers example_closure
                         App.checkPaymentStatus (paying_server 0) 0))
           eq_refl).
Defined.

(** ** Protected routes *)

(** C4. For every route of the table whose element is wrapped in
    [ProtectedRoute], once loading is finished and there is no user, what is
    rendered at its path is the replace-navigation to [/auth]; neither the
    navigation bar nor the page is rendered. *)
Theorem protected_route_redirects_to_auth
    (path : jsstring) (children : Router.element) (user : jsval) :
  In (path, Router.Protected children) Router.routes ->
  truthy user = false ->
  Router.match_route path = Router.Protected children /\
  Router.render user false (Router.match_route path)
    = Router.Redirect "/auth" true /\
  Router.shows_content (Router.render user false (Router.match_route path))
    = false.
Proof.
  intros Hin Hu.
  assert (Hm : Router.match_route path = Router.Protected children).
  { unfold Router.routes in Hin. simpl in Hin.
    repeat (destruct Hin as [Hin|Hin];
            [inversion Hin; subst; vm_compute; reflexivity|]).
    contradiction. }
  rewrite Hm. cbn [Router.render]. unfold Router.ProtectedRoute.
  rewrite Hu. repeat split.
Qed.

Lemma protected_route_redirects_to_auth_witness :
  Router.match_route "/tarot" = Router.Protected (Router.El Router.TarotPage) /\
  Router.render JNull false (Router.match_route "/tarot")
    = Router.Redirect "/auth" true /\
  Router.shows_content (Router.render JNull false (Router.match_route "/tarot"))
    = false.
Proof.
  apply (protected_route_redirects_to_auth "/tarot"
           (Router.El Router.TarotPage) JNull).
  - vm_compute. tauto.
  - reflexivity.
Defined.

(** ** Guards of the operations *)

(** C9. When the user is not premium and the selected spread is
    ['celtic_cross'], [drawCards] returns after a premium-required error
    toast and a navigation to [/premium]: it sends no request, consumes no
    reply, and leaves every state hook, the reading and the flipped cards
    among them, unchanged. *)
Theorem drawCards_celtic_cross_needs_premium
    (API_URL : jsstring) (user token : jsval) (question : jsstring)
    (srv : server) (n : nat) :
  truthy (opt_get user "is_premium") = false ->
  let r := TarotPage.drawCards API_URL user token "celtic_cross" question srv n in
  r = (Ret tt, n,
       [ToastError "Celtic Cross requires Premium"; Navigate "/premium"]) /\
  requests (trace_of r) = [] /\
  forall st, commit (trace_of r) st = st.
Proof.
  intros Hu. cbv zeta. unfold TarotPage.drawCards.
  rewrite Hu. rewrite jsstring_eqb_refl. cbn [negb andb].
  repeat split.
Qed.

Lemma drawCards_celtic_cross_needs_premium_witness :
  let r := TarotPage.drawCards "" (App.user example_closure) (JStr "tok")
             "celtic_cross" "" pending_server 0 in
  r = (Ret tt, 0,
       [ToastError "Celtic Cross requires Premium"; Navigate "/premium"]) /\
  requests (trace_of r) = [] /\
  forall st, commit (trace_of r) st = st.
Proof.
  apply (drawCards_celtic_cross_needs_premium "" (App.user example_closure)
           (JStr "tok") "" pending_server 0).
  reflexivity.
Defined.

(** C10. For an input that is empty or made of whitespace only,
    [sendMessage] and [createPost] return at once: no request is sent, no
    reply is consumed and no state setter is called, so the messages, the
    loading flag, the posts and the input fields keep their values. *)
Theorem blank_input_is_ignored
    (API_URL : jsstring) (token posts : jsval) (audioEnabled : bool)
    (category input : jsstring) (srv : server) (n : nat) :
  forallb is_whitespace input = true ->
  let sent := VoiceOracle.sendMessage API_URL token audioEnabled input srv n in
  let posted := Community.createPost API_URL token posts input category srv n in
  sent = (Ret tt, n, []) /\ posted = (Ret tt, n, []) /\
  requests (trace_of sent) = [] /\ requests (trace_of posted) = [] /\
  forall st, commit (trace_of sent) st = st /\ commit (trace_of posted) st = st.
Proof.
  intros Hw. cbv zeta.
  unfold VoiceOracle.sendMessage, Community.createPost.
  rewrite (trim_whitespace input Hw). cbn [is_empty].
  repeat split.
Qed.

Lemma blank_input_is_ignored_witness :
  let input : jsstring := [32; 9; 10; 160]%N in
  let sent := VoiceOracle.sendMessage "" (JStr "tok") true input pending_server 0 in
  let posted :=
    Community.createPost "" (JStr "tok") (JArr []) input "general"
      pending_server 0 in
  sent = (Ret tt, 0, []) /\ posted = (Ret tt, 0, []) /\
  requests (trace_of sent) = [] /\ requests (trace_of posted) = [] /\
  forall st, commit (trace_of sent) st = st /\ commit (trace_of posted) st = st.
Proof.
  apply (blank_input_is_ignored "" (JStr "tok") (JArr []) true "general"
           [32; 9; 10; 160]%N pending_server 0).
  reflexivity.
Defined.

(** ** Requests of all operations *)

(** The request carries the header [Authorization: Bearer <token>]. *)
Definition authorized (token : jsval) (r : request) : Prop :=
  In (bearer token) (headers r).

(** The operations that submit the credentials, before there is a token. *)
Definition sends_credentials (op : App.operation) : bool :=
  match op with
  | App.login | App.register | App.handleSubmit => true
  | _ => false
  end.

(** The reads of the community feed and of the remedies database. *)
Definition public_read (op : App.operation) : bool :=
  match op with
  | App.fetchPosts | App.search => true
  | _ => false
  end.

Definition on_requests (Q : request -> Prop) (e : event) : Prop :=
  match e with
  | Fetch r => Q r
  | _ => True
  end.

Lemma requests_Forall Q tr :
  Forall (on_requests Q) tr -> Forall Q (requests tr).
Proof.
  induction 1 as [|e tr He _ IH]; [constructor|].
  unfold requests in *. cbn [flat_map].
  destruct e; cbn [app]; try exact IH.
  constructor; [exact He | exact IH].
Qed.

Definition feed_request (c : App.closure) : request :=
  {| url := App.API_URL c +++ "/api/community/feed";
     method := "GET"; headers := []; body_of := NoBody |}.

Definition search_request (c : App.closure) (encoded : jsstring) : request :=
  {| url := App.API_URL c +++ "/api/database/search?query="
            +++ encoded
            +++ "&category=" +++ App.db_category c;
     method := "GET"; headers := []; body_of := NoBody |}.

Lemma fetchPosts_requests (c : App.closure) (srv : server) (n : nat) :
  requests (trace_of (App.perform c App.fetchPosts srv n)) = [feed_request c].
Proof.
  cbv beta iota zeta
      delta [App.perform Community.fetchPosts try_finally try_catch bind fetch
             set emit trace_of get json ok ret throw fst snd].
  destruct (srv n) as [e|[] [data|e]]; try reflexivity.
  destruct data; reflexivity.
Qed.

Lemma search_requests (c : App.closure) (srv : server) (n : nat) :
  is_empty (trim (App.query c)) = false ->
  requests (trace_of (App.perform c App.search srv n))
  = match App.encodeURIComponent c (App.query c) with
    | inl encoded => [search_request c encoded]
    | inr _ => []
    end.
Proof.
  intros Hq.
  cbv beta iota zeta delta [App.perform DatabasePage.search].
  rewrite Hq.
  destruct (App.encodeURIComponent c (App.query c)) as [encoded|message];
    cbv beta iota zeta
        delta [try_finally try_catch bind fetch
               set emit trace_of get json ok ret throw fst snd];
    [|reflexivity].
  destruct (srv n) as [e|[] [data|e]]; try reflexivity.
  destruct data; reflexivity.
Qed.

Lemma credentials_requests (c : App.closure) (op : App.operation)
    (srv : server) (n : nat) :
  sends_credentials op = true ->
  Forall (fun r => headers r = [content_type_json])
    (requests (trace_of (App.perform c op srv n))).
Proof.
  intros Hc. apply requests_Forall.
  revert srv n.
  change (emits (on_requests (fun r => headers r = [content_type_json]))
            (App.perform c op)).
  destruct op; try discriminate Hc; cbn [App.perform];
    emits_all ltac:(cbn; first [exact I | reflexivity]).
Qed.

(** The claim of C6 as the specification words it: every request carries
    the bearer token. *)
Definition bearer_on_every_request : Prop :=
  forall (c : App.closure) (op : App.operation) (srv : server),
    Forall (authorized (App.token c)) (requests (run (App.perform c op) srv)).

(** C6, as stated, fails: the request of [fetchPosts] has no headers. *)
Lemma fetchPosts_sends_no_token : ~ bearer_on_every_request.
Proof.
  intros H.
  specialize (H example_closure App.fetchPosts pending_server).
  unfold run in H. rewrite fetchPosts_requests in H.
  inversion H as [|r l Hr _]. destruct Hr.
Qed.

(** C6, amended.  Every request carries [Authorization: Bearer <token>] with
    the token of the auth context, except those of four operations.  The
    requests of [login] and of [register], also when [handleSubmit] makes
    them while a token is stored, carry the JSON content type as their only
    header.  The community feed fetch sends one request without any header,
    and so does the database search when the query can be encoded; when
    [encodeURIComponent] throws, the search sends nothing. *)
Theorem bearer_on_authenticated_requests (c : App.closure)
    (op : App.operation) (srv : server) (n : nat) :
  let sent := requests (trace_of (App.perform c op srv n)) in
  (sends_credentials op = false -> public_read op = false ->
   Forall (authorized (App.token c)) sent) /\
  (sends_credentials op = true ->
   Forall (fun r => headers r = [content_type_json]) sent) /\
  (op = App.fetchPosts -> sent = [feed_request c]) /\
  (op = App.search -> is_empty (trim (App.query c)) = false ->
   sent = match App.encodeURIComponent c (App.query c) with
          | inl encoded => [search_request c encoded]
          | inr _ => []
          end) /\
  (forall t, bearer (JStr t) = (lit "Authorization", lit "Bearer " ++ t)).
Proof.
  cbv zeta. repeat split.
  - intros Hc Hp. apply requests_Forall.
    revert srv n. change (emits (on_requests (authorized (App.token c)))
                            (App.perform c op)).
    destruct op; try discriminate Hc; try discriminate Hp; cbn [App.perform];
      emits_all ltac:(cbn; tauto).
  - apply credentials_requests.
  - intros ->. apply fetchPosts_requests.
  - intros ->. apply search_requests.
Qed.

Lemma bearer_on_authenticated_requests_witness :
  Forall (authorized (App.token example_closure))
    (requests (trace_of (App.perform example_closure App.checkPaymentStatus
                           (paying_server 0) 0))).
Proof.
  exact (proj1 (bearer_on_authenticated_requests example_closure
                  App.checkPaymentStatus (paying_server 0) 0)
           eq_refl eq_refl).
Defined.

(** ** Request payloads *)



(** The upload of the recording of the oracle, for transcription. *)
Definition listen_request (c : App.closure) : request :=
  {| url := App.API_URL c +++ "/api/oracle/listen";
     method := "POST";
     headers := [bearer (App.token c)];
     body_of :=
       FormDataBody
         [(lit "file",
           {| blob_type := "audio/webm"; blob_bytes := App.chunks c |},
           lit "recording.webm")] |}.


















(** ** Errors of login and registration *)

Definition login_request (API_URL : jsstring) (formData : jsval) : request :=
  {| url := API_URL +++ "/api/auth/login";
     method := "POST";
     headers := [content_type_json];
     body_of := JsonBody (JObj [field "email" (opt_get formData "email");
                                field "password" (opt_get formData "password")]) |}.

Definition register_request (API_URL : jsstring) (formData : jsval) : request :=
  {| url := API_URL +++ "/api/auth/register";
     method := "POST";
     headers := [content_type_json];
     body_of := JsonBody formData |}.

(** What [handleSubmit] does when [login] or [register] throws [message]. *)
Definition failed_submit (r : request) (message : jsstring) : list event :=
  [PreventDefault;
   Update AuthPage_loading (SetTo (JBool true));
   Fetch r;
   ToastError message;
   Update AuthPage_loading (SetTo (JBool false))].

Definition locked_server : server :=
  fun _ => Response false (inl (JObj [field "detail" (JStr "Account locked")])).

(** The claim of C7 as the specification words it, for [login]: the error
    thrown on a response that is not ok carries the message of the server. *)
Definition login_surfaces_server_message : Prop :=
  forall (API_URL : jsstring) (email password : jsval) (srv : server)
         (n : nat) (detail : jsstring),
    srv n = Response false (inl (JObj [field "detail" (JStr detail)])) ->
    outcome_of (AuthProvider.login API_URL email password srv n)
    = Throw detail.

(** C7, as stated, fails: [login] throws ['Invalid credentials'] whatever the
    server sent. *)
Lemma login_discards_server_message : ~ login_surfaces_server_message.
Proof.
  intros H.
  specialize (H "" JNull JNull locked_server 0 "Account locked" eq_refl).
  vm_compute in H. discriminate H.
Qed.

(** C7, amended.  On a response that is not ok, [login] throws the fixed
    message ['Invalid credentials'], and [register] throws the [detail] of
    the JSON object sent by the server when it is a non-empty string, and
    ['Registration failed'] when the object has no truthy [detail]; in each
    case [handleSubmit] shows the message thrown in an error toast, without
    navigating. *)
Theorem auth_errors_shown (API_URL : jsstring) (formData : jsobj)
    (srv : server) (n : nat) (body : jsval + jsstring) :
  srv n = Response false body ->
  (forall email password,
     outcome_of (AuthProvider.login API_URL email password srv n)
     = Throw "Invalid credentials") /\
  trace_of (AuthPage.handleSubmit API_URL true (JObj formData) srv n)
  = failed_submit (login_request API_URL (JObj formData)) "Invalid credentials" /\
  (forall o,
     body = inl (JObj o) ->
     let message :=
       to_string (js_or (opt_get (JObj o) "detail") (JStr "Registration failed")) in
     outcome_of (AuthProvider.register API_URL (JObj formData) srv n)
     = Throw message /\
     trace_of (AuthPage.handleSubmit API_URL false (JObj formData) srv n)
     = failed_submit (register_request API_URL (JObj formData)) message /\
     (forall detail, lookup "detail" o = Some (JStr detail) -> detail <> [] ->
        message = detail) /\
     (truthy (opt_get (JObj o) "detail") = false ->
        message = lit "Registration failed")).
Proof.
  intros Hs. split; [|split].
  - intros email password.
    unfold AuthProvider.login, bind, fetch, outcome_of. rewrite Hs.
    reflexivity.
  - run_op. rewrite Hs. reflexivity.
  - intros o ->. cbv zeta. repeat split.
    + unfold AuthProvider.register, bind, fetch, outcome_of. rewrite Hs.
      reflexivity.
    + run_op. rewrite Hs. reflexivity.
    + intros detail Hl Hd. unfold opt_get. rewrite Hl.
      destruct detail; [congruence | reflexivity].
    + intros Hf. unfold js_or. rewrite Hf. reflexivity.
Qed.

Lemma auth_errors_shown_witness :
  trace_of (AuthPage.handleSubmit "" true (JObj []) locked_server 0)
  = failed_submit (login_request "" (JObj [])) "Invalid credentials".
Proof.
  exact (proj1 (proj2 (auth_errors_shown "" [] locked_server 0 _ eq_refl))).
Defined.

(** ** The card draw *)

Module Backend.
(** Modelled from the spec: the fixed 78-item card table of the backend,
    which is not among the sources; a card is identified by its index. *)
Definition deck : list nat := seq 0 78.

(** Modelled from the spec: taking a drawn card out of the cards left
    ("without replacement"). *)
Fixpoint remove_nth {A} (i : nat) (l : list A) : list A :=
  match l, i with
  | [], _ => []
  | _ :: l', 0 => l'
  | x :: l', S i' => x :: remove_nth i' l'
  end.

(** Modelled from the spec: the card-draw logic of the backend, which is
    not among the sources: "a uniform random sample without replacement
    from a fixed 78-item table".  The random numbers are an input; each
    one selects a card among those left. *)
Fixpoint sample (n : nat) (cards : list nat) (random : list nat) : list nat :=
  match n, cards with
  | S n', d :: _ =>
      let i := hd 0 random mod length cards in
      nth i cards d :: sample n' (remove_nth i cards) (tl random)
  | _, _ => []
  end.

(** Modelled from the spec: the card records of a reading, "optionally
    flagging each as reversed by a coin flip"; [flips] are the coin flips
    by position and [names] the names of the table. *)
Fixpoint records (names : nat -> jsstring) (flips : nat -> bool) (i : nat)
    (ids : list nat) : list jsval :=
  match ids with
  | [] => []
  | id :: ids' =>
      JObj [field "id" (JNum (Z.of_nat id)); field "name" (JStr (names id));
            field "reversed" (JBool (flips i))]
      :: records names flips (S i) ids'
  end.

(** Modelled from the spec: the card-draw endpoint [POST /api/tarot/draw]
    of the backend, which is not among the sources: "submitting a card draw
    returns exactly N card records matching the requested spread size",
    with N the card count of the spread named by [spread_type]; the
    reading also carries a free-text interpretation. *)
Definition draw (names : nat -> jsstring) (interpretation : jsstring)
    (random : list nat) (flips : nat -> bool) (r : request) : reply :=
  match body_of r with
  | JsonBody payload =>
      match opt_get payload "spread_type" with
      | JStr spread_type =>
          match find (fun s => jsstring_eqb (TarotPage.id s) spread_type)
                     TarotPage.spreads with
          | Some s =>
              Response true
                (inl (JObj [field "cards"
                              (JArr (records names flips 0
                                       (sample (TarotPage.cards s) deck random)));
                            field "interpretation" (JStr interpretation)]))
          | None =>
              Response false
                (inl (JObj [field "detail" (JStr "Invalid spread type")]))
          end
      | _ => Response false (inl (JObj [field "detail" (JStr "Invalid request")]))
      end
  | _ => Response false (inl (JObj [field "detail" (JStr "Invalid request")]))
  end.

Lemma remove_nth_length {A} (l : list A) : forall i,
  i < length l -> length (remove_nth i l) = length l - 1.
Proof.
  induction l as [|x l IH]; intros i Hi; simpl in *; [lia|].
  destruct i; simpl; [lia|]. rewrite IH by lia. lia.
Qed.

Lemma sample_length n : forall cards random,
  n <= length cards -> length (sample n cards random) = n.
Proof.
  induction n as [|n IH]; intros cards random Hn; [reflexivity|].
  destruct cards as [|d cards]; [simpl in Hn; lia|].
  cbn [sample length]. f_equal. apply IH.
  rewrite remove_nth_length.
  - simpl in *. lia.
  - apply Nat.mod_upper_bound. discriminate.
Qed.

Lemma records_length names flips ids : forall i,
  length (records names flips i ids) = length ids.
Proof. induction ids; intros i; simpl; auto. Qed.
End Backend.

Definition draw_request (c : App.closure) : request :=
  {| url := App.API_URL c +++ "/api/tarot/draw";
     method := "POST";
     headers := [content_type_json; bearer (App.token c)];
     body_of :=
       JsonBody (JObj [field "spread_type" (JStr (App.spreadType c));
                       field "question" (JStr (App.question c))]) |}.

Lemma writes_app h tr1 tr2 : writes h (tr1 ++ tr2) = writes h tr1 ++ writes h tr2.
Proof. apply flat_map_app. Qed.

Lemma writes_no_update h tr :
  Forall (fun e => is_update e = false) tr -> writes h tr = [].
Proof.
  induction 1 as [|e tr He _ IH]; [reflexivity|].
  unfold writes in *. cbn [flat_map]. rewrite IH.
  destruct e; try reflexivity. discriminate He.
Qed.

Lemma find_spread s :
  In s TarotPage.spreads ->
  find (fun s' => jsstring_eqb (TarotPage.id s') (TarotPage.id s))
       TarotPage.spreads = Some s.
Proof.
  intros [<-|[<-|[<-|[]]]]; reflexivity.
Qed.

Lemma spread_cards_bound s :
  In s TarotPage.spreads -> TarotPage.cards s <= length Backend.deck.
Proof.
  intros [<-|[<-|[<-|[]]]]; unfold Backend.deck; rewrite length_seq; simpl; lia.
Qed.

Lemma drawCards_guard user s :
  In s TarotPage.spreads ->
  (TarotPage.premium s = true -> truthy (opt_get user "is_premium") = true) ->
  negb (truthy (opt_get user "is_premium"))
  && jsstring_eqb (TarotPage.id s) "celtic_cross" = false.
Proof.
  intros [<-|[<-|[<-|[]]]] Hp; try apply andb_false_r.
  rewrite (Hp eq_refl). reflexivity.
Qed.

(** [v == null] *)
Definition nullish (v : jsval) : bool :=
  match v with
  | JUndefined | JNull => true
  | _ => false
  end.

(** The card can be rendered: it is not [null] or [undefined], and neither
    its [id] nor its [name] is an object. *)
Definition renders (card : jsval) : bool :=
  negb (nullish card)
  && TarotPage.valid_child (opt_get card "id")
  && TarotPage.valid_child (opt_get card "name").

Lemma map_cards_step flippedCards i card cs :
  TarotPage.map_cards flippedCards i (card :: cs)
  = if renders card
    then option_map
           (cons {| TarotPage.key := i;
                    TarotPage.flipped := TarotPage.includes flippedCards i;
                    TarotPage.reversed := truthy (opt_get card "reversed");
                    TarotPage.card_id := opt_get card "id";
                    TarotPage.card_name := opt_get card "name" |})
           (TarotPage.map_cards flippedCards (S i) cs)
    else None.
Proof. unfold renders. destruct card; reflexivity. Qed.

Lemma map_cards_faces flippedCards cs : forall i,
  Forall (fun card => renders card = true) cs ->
  exists els,
    TarotPage.map_cards flippedCards i cs = Some els /\
    map TarotPage.key els = seq i (length cs) /\
    map TarotPage.flipped els
    = map (TarotPage.includes flippedCards) (seq i (length cs)) /\
    map TarotPage.reversed els
    = map (fun card => truthy (opt_get card "reversed")) cs /\
    map TarotPage.card_id els = map (fun card => opt_get card "id") cs /\
    map TarotPage.card_name els = map (fun card => opt_get card "name") cs.
Proof.
  induction cs as [|card cs IH]; intros i Hc.
  - exists []. repeat split.
  - inversion Hc as [|x l Hn Hrest]; subst.
    destruct (IH (S i) Hrest) as (els & He & Hk & Hf & Hr & Hi & Hm).
    rewrite map_cards_step, Hn, He.
    eexists; split; [reflexivity|]; cbn [map length seq];
      rewrite Hk, Hf, Hr, Hi, Hm; repeat split.
Qed.

Lemma map_cards_throws flippedCards cs : forall i,
  Exists (fun card => renders card = false) cs ->
  TarotPage.map_cards flippedCards i cs = None.
Proof.
  induction cs as [|card cs IH]; intros i Hc; inversion Hc; subst;
    rewrite map_cards_step.
  - now rewrite H0.
  - rewrite (IH (S i)) by assumption. now destruct (renders card).
Qed.

Lemma records_render names flips ids : forall i,
  Forall (fun card => renders card = true) (Backend.records names flips i ids).
Proof.
  induction ids as [|id ids IH]; intros i; cbn [Backend.records];
    constructor; [reflexivity | apply IH].
Qed.

Lemma requests_app tr1 tr2 : requests (tr1 ++ tr2) = requests tr1 ++ requests tr2.
Proof. apply flat_map_app. Qed.

Lemma requests_no_fetch tr :
  Forall (fun e => is_fetch e = false) tr -> requests tr = [].
Proof.
  induction 1 as [|e tr He _ IH]; [reflexivity|].
  unfold requests in *. cbn [flat_map]. rewrite IH.
  destruct e; try reflexivity. discriminate He.
Qed.

Lemma forEach_timers v (g : nat -> event) srv n :
  (forall i, is_update (g i) = false /\ is_fetch (g i) = false) ->
  let tr := trace_of (forEach v (fun _ idx => emit (g idx)) srv n) in
  writes TarotPage_reading tr = [] /\ requests tr = [].
Proof.
  intros Hg. cbv zeta. split.
  - apply writes_no_update.
    apply (emits_forEach (fun e => is_update e = false)).
    intros x i. apply emits_emit. apply Hg.
  - apply requests_no_fetch.
    apply (emits_forEach (fun e => is_fetch e = false)).
    intros x i. apply emits_emit. apply Hg.
Qed.

(** C5.  Modelled from the spec: the draw endpoint is [Backend.draw].  The
    frontend configures 1 card for ['single'], 3 for ['three_card'] and 10
    for ['celtic_cross'].  When [drawCards] is submitted for a spread of the
    table that the user may draw, and the backend answers the request with
    its draw, the reply is a successful response whose reading has exactly
    as many card records as the spread configures; [drawCards] sends the one
    request and stores that reading, as it is; and the cards display of
    [TarotPage] renders one card element per record of it, in order, keyed
    by position and showing the [id] and the [name] of the record. *)
Theorem draw_returns_spread_size (c : App.closure) (s : TarotPage.spread)
    (names : nat -> jsstring) (interpretation : jsstring) (random : list nat)
    (flips : nat -> bool) (flippedCards : jsval) (srv : server) (n : nat) :
  In s TarotPage.spreads ->
  (TarotPage.premium s = true ->
   truthy (opt_get (App.user c) "is_premium") = true) ->
  App.spreadType c = TarotPage.id s ->
  srv n = Backend.draw names interpretation random flips (draw_request c) ->
  let cs := Backend.records names flips 0
              (Backend.sample (TarotPage.cards s) Backend.deck random) in
  let reading := JObj [field "cards" (JArr cs);
                       field "interpretation" (JStr interpretation)] in
  let tr := trace_of (App.perform c App.drawCards srv n) in
  map (fun s => (TarotPage.id s, TarotPage.cards s)) TarotPage.spreads
  = [(lit "single", 1); (lit "three_card", 3); (lit "celtic_cross", 10)] /\
  srv n = Response true (inl reading) /\
  length cs = TarotPage.cards s /\
  requests tr = [draw_request c] /\
  writes TarotPage_reading tr = [SetTo JNull; SetTo reading] /\
  exists els,
    TarotPage.cards_display reading flippedCards = Some els /\
    length els = TarotPage.cards s /\
    map TarotPage.key els = seq 0 (TarotPage.cards s) /\
    map TarotPage.card_id els = map (fun card => opt_get card "id") cs /\
    map TarotPage.card_name els = map (fun card => opt_get card "name") cs.
Proof.
  intros Hin Hprem Hst Hsrv cs reading tr.
  split; [reflexivity|].
  assert (Hdraw :
    Backend.draw names interpretation random flips (draw_request c)
    = Response true (inl reading)).
  { unfold Backend.draw, draw_request. cbn [body_of].
    unfold opt_get, field. cbn [lookup]. rewrite jsstring_eqb_refl.
    rewrite Hst, find_spread by assumption. reflexivity. }
  rewrite Hdraw in Hsrv. clear Hdraw.
  assert (Hlen : length cs = TarotPage.cards s).
  { unfold cs. rewrite Backend.records_length.
    apply Backend.sample_length. now apply spread_cards_bound. }
  assert (Hc : opt_get reading "cards" = JArr cs).
  { unfold reading, opt_get, field. cbn [lookup].
    now rewrite jsstring_eqb_refl. }
  split; [exact Hsrv|]. split; [exact Hlen|].
  assert (Htr : requests tr = [draw_request c] /\
                writes TarotPage_reading tr = [SetTo JNull; SetTo reading]).
  { unfold tr. cbn [App.perform]. unfold TarotPage.drawCards.
    rewrite Hst, drawCards_guard by assumption. rewrite <- Hst.
    fold (draw_request c).
    cbv beta iota zeta
        delta [try_finally try_catch bind fetch set emit trace_of get json ok
               ret throw fst snd negb].
    rewrite Hsrv. unfold reading in Hc |- *. cbv beta iota. rewrite Hc.
    match goal with
    | |- context [forEach ?v ?f srv (S n)] =>
        destruct (forEach_timers v
                    (fun idx => SetTimeout (flip_card idx) (500 + idx * 800))
                    srv (S n)) as [Hw Hr];
          [intros i; split; reflexivity|];
          change (fun (_ : jsval) (idx : nat) =>
                    emit (SetTimeout (flip_card idx) (500 + idx * 800)))
            with f in Hw, Hr;
          unfold trace_of in Hw, Hr;
          destruct (forEach v f srv (S n)) as [[o n'] tr']
    end.
    cbn [snd] in Hw, Hr.
    destruct o; cbn [app snd]; (split;
      [ cbn; rewrite ?requests_app, ?Hr; reflexivity
      | match goal with
        | |- writes _ (?a :: ?b :: ?d :: ?e :: ?f :: ?t) = _ =>
            change (a :: b :: d :: e :: f :: t) with ([a; b; d; e; f] ++ t)
        end;
        rewrite !writes_app, Hw; reflexivity ]). }
  split; [apply Htr|]. split; [apply Htr|].
  destruct (map_cards_faces flippedCards cs 0 (records_render _ _ _ _))
    as (els & He & Hk & _ & _ & Hi & Hm).
  exists els. unfold TarotPage.cards_display. rewrite Hc.
  rewrite <- Hlen.
  repeat split; try assumption.
  rewrite <- (length_map TarotPage.key), Hk. apply length_seq.
Qed.

Lemma draw_returns_spread_size_witness :
  let c := premium_closure in
  let srv : server :=
    fun _ => Backend.draw (fun i => decimal i) "..." [5; 77; 13] (fun _ => false)
               (draw_request c) in
  let cs := Backend.records (fun i => decimal i) (fun _ => false) 0
              (Backend.sample 10 Backend.deck [5; 77; 13]) in
  let reading := JObj [field "cards" (JArr cs);
                       field "interpretation" (JStr "...")] in
  length cs = 10 /\
  writes TarotPage_reading (trace_of (App.perform c App.drawCards srv 0))
  = [SetTo JNull; SetTo reading] /\
  exists els,
    TarotPage.cards_display reading (JArr []) = Some els /\
    length els = 10.
Proof.
  cbv zeta.
  pose proof (draw_returns_spread_size premium_closure
                {| TarotPage.id := "celtic_cross";
                   TarotPage.name := "Celtic Cross";
                   TarotPage.cards := 10; TarotPage.premium := true |}
                (fun i => decimal i) "..." [5; 77; 13] (fun _ => false)
                (JArr [])
                (fun _ => Backend.draw (fun i => decimal i) "..." [5; 77; 13]
                            (fun _ => false) (draw_request premium_closure))
                0) as H.
  cbv zeta in H.
  destruct H as (_ & _ & Hl & _ & Hw & els & He & Hn & _).
  - vm_compute. tauto.
  - intros _. vm_compute. reflexivity.
  - reflexivity.
  - reflexivity.
  - split; [exact Hl|]. split; [exact Hw|]. exists els. now split.
Defined.

(** * Further properties of the operations *)

(** ** The store after a trace *)

(** The value of a hook after a trace is its old value passed through the
    writes to that hook, in order. *)
Lemma commit_writes tr : forall st h,
  commit tr st h
  = fold_left (fun v u => apply_updater u v) (writes h tr) (st h).
Proof.
  unfold commit, writes.
  induction tr as [|e tr IH]; intros st h; [reflexivity|].
  cbn [fold_left flat_map]. rewrite IH.
  destruct e; try reflexivity.
  cbn [apply_event]. destruct (hook_eq_dec h h0) as [<-|Hne].
  - destruct (hook_eq_dec h h); [reflexivity | congruence].
  - destruct (hook_eq_dec h0 h); [congruence | reflexivity].
Qed.

Lemma commit_untouched tr st h : writes h tr = [] -> commit tr st h = st h.
Proof. intros H. now rewrite commit_writes, H. Qed.

(** Unfolds the operations and the monad down to the replies of the backend. *)
Ltac run_ops :=
  cbv beta iota zeta
      delta [App.perform App.discard AuthPage.handleSubmit AuthProvider.login
             AuthProvider.register AuthProvider.fetchUser AuthProvider.logout
             Dashboard.fetchSoulprint Profile.fetchSoulprint
             VoiceOracle.sendMessage VoiceOracle.onstop VoiceOracle.playAudio
             TarotPage.drawCards BioScanner.onloadend BioScanner.onstop
             Community.fetchPosts
             Community.createPost PremiumPage.checkPaymentStatus
             PremiumPage.startCheckout PremiumPage.effect
             PaymentSuccess.pollPaymentStatus PaymentSuccess.effect
             DatabasePage.search
             try_finally try_catch bind fetch set emit trace_of outcome_of
             get json ok ret throw when detached cons_spread fst snd negb].

(** ** Restoring the session *)

Definition me_request (API_URL : jsstring) (token : jsval) : request :=
  {| url := API_URL +++ "/api/auth/me";
     method := "GET";
     headers := [bearer token];
     body_of := NoBody |}.

Lemma fetchUser_auth_context (API_URL : jsstring) (token : jsval)
    (srv : server) (n : nat) (st : store) :
  let st' := commit (trace_of (AuthProvider.fetchUser API_URL token srv n)) st in
  st' AuthProvider_loading = JBool false /\
  (forall body, srv n = Response false body -> st' AuthProvider_user = JNull) /\
  (forall data, srv n = Response true (inl data) ->
     st' AuthProvider_user = data).
Proof.
  run_ops.
  destruct (srv n) as [e|[] [data|e]]; cbn; repeat split;
    intros x Hx; inversion Hx; reflexivity.
Qed.

(** X1.  [fetchUser] sends one request and always ends with the loading flag
    cleared.  A successful response replaces the user by its body and keeps
    the token; a response that is not ok logs out: the token is removed from
    the local storage and token and user become [null]; when the request
    fails or the body does not parse, user, token and local storage are left
    as they were. *)
Theorem fetchUser_session (API_URL : jsstring) (token : jsval) (srv : server)
    (n : nat) (st : store) :
  let tr := trace_of (AuthProvider.fetchUser API_URL token srv n) in
  let st' := commit tr st in
  requests tr = [me_request API_URL token] /\
  st' AuthProvider_loading = JBool false /\
  match srv n with
  | Response true (inl data) =>
      st' AuthProvider_user = data /\
      st' AuthProvider_token = st AuthProvider_token /\
      ~ In (LocalStorageRemove "yky_token") tr
  | Response false _ =>
      st' AuthProvider_user = JNull /\
      st' AuthProvider_token = JNull /\
      In (LocalStorageRemove "yky_token") tr
  | Response true (inr _) | NetworkError _ =>
      st' AuthProvider_user = st AuthProvider_user /\
      st' AuthProvider_token = st AuthProvider_token /\
      ~ In (LocalStorageRemove "yky_token") tr
  end.
Proof.
  run_ops. fold (me_request API_URL token).
  destruct (srv n) as [e|[] [data|e]]; cbn;
    repeat split; try tauto;
    intros H; repeat (destruct H as [H|H]; [discriminate H|]); exact H.
Qed.

Lemma match_route_protected path children :
  In (path, Router.Protected children) Router.routes ->
  Router.match_route path = Router.Protected children /\
  exists c, children = Router.El c.
Proof.
  intros Hin. unfold Router.routes in Hin. simpl in Hin.
  repeat (destruct Hin as [Hin|Hin];
          [inversion Hin; subst;
           (split; [vm_compute; reflexivity | eauto])|]).
  contradiction.
Qed.

(** What the router renders for the auth context of a store. *)
Definition route_view (st : store) (path : jsstring) : Router.view :=
  Router.render (st AuthProvider_user) (truthy (st AuthProvider_loading))
    (Router.match_route path).

(** X2.  After [fetchUser], a protected route no longer shows the spinner: when
    the backend rejected the token it redirects to [/auth]; when it answered
    with a user it shows the navigation bar and the page. *)
Theorem fetchUser_then_protected_route (API_URL : jsstring) (token : jsval)
    (srv : server) (n : nat) (st : store) (path : jsstring)
    (c : Router.component) :
  In (path, Router.Protected (Router.El c)) Router.routes ->
  let st' := commit (trace_of (AuthProvider.fetchUser API_URL token srv n)) st in
  (forall body, srv n = Response false body ->
     route_view st' path = Router.Redirect "/auth" true) /\
  (forall data, srv n = Response true (inl data) -> truthy data = true ->
     route_view st' path = Router.Fragment [Router.Navigation; Router.Page c]).
Proof.
  intros Hin. cbv zeta. unfold route_view.
  destruct (match_route_protected _ _ Hin) as [-> _].
  pose proof (fetchUser_auth_context API_URL token srv n st) as H.
  cbv zeta in H. destruct H as (Hl & Hno & Hyes). rewrite Hl.
  split.
  - intros body Hs. rewrite (Hno body Hs). reflexivity.
  - intros data Hs Ht. rewrite (Hyes data Hs).
    cbn. unfold Router.ProtectedRoute. now rewrite Ht.
Qed.

Lemma fetchUser_then_protected_route_witness :
  let st' :=
    commit (trace_of (AuthProvider.fetchUser "" (JStr "tok") locked_server 0))
      premium_store in
  (forall body, locked_server 0 = Response false body ->
     route_view st' "/tarot" = Router.Redirect "/auth" true) /\
  (forall data, locked_server 0 = Response true (inl data) ->
     truthy data = true ->
     route_view st' "/tarot"
     = Router.Fragment [Router.Navigation; Router.Page Router.TarotPage]).
Proof.
  apply (fetchUser_then_protected_route "" (JStr "tok") locked_server 0
           premium_store "/tarot" Router.TarotPage).
  vm_compute. tauto.
Defined.

(** ** Signing in *)

Definition credentials_request (API_URL : jsstring) (email password : jsval)
  : request :=
  {| url := API_URL +++ "/api/auth/login";
     method := "POST";
     headers := [content_type_json];
     body_of := JsonBody (JObj [field "email" email;
                                field "password" password]) |}.

(** What [login] and [register] do with the body of a successful response. *)
Definition open_session (data : jsval) : list event :=
  [LocalStorageSet "yky_token" (to_string (opt_get data "token"));
   Update AuthProvider_token (SetTo (opt_get data "token"));
   Update AuthProvider_user (SetTo (opt_get data "user"))].

(** X3.  [login] and [register] are all or nothing, for a backend whose token
    is a value that the local storage can store: a string, a number below
    2^53, or another value without a [toString] property of its own.  When
    they return, the reply was a successful response, they return its body,
    and they have stored its token in the local storage and set token and
    user from it; when they throw, they have written neither the local
    storage nor any state. *)
Theorem login_register_all_or_nothing (API_URL : jsstring)
    (email password userData : jsval) (srv : server) (n : nat) :
  (forall data, srv n = Response true (inl data) ->
     printable (opt_get data "token") = true) ->
  let signed_in := AuthProvider.login API_URL email password srv n in
  let registered := AuthProvider.register API_URL userData srv n in
  match outcome_of signed_in with
  | Ret data =>
      srv n = Response true (inl data) /\
      trace_of signed_in
      = Fetch (credentials_request API_URL email password) :: open_session data
  | Throw _ =>
      trace_of signed_in = [Fetch (credentials_request API_URL email password)]
  end /\
  match outcome_of registered with
  | Ret data =>
      srv n = Response true (inl data) /\
      trace_of registered
      = Fetch (register_request API_URL userData) :: open_session data
  | Throw _ => trace_of registered = [Fetch (register_request API_URL userData)]
  end.
Proof.
  intros _. run_ops.
  fold (credentials_request API_URL email password).
  fold (register_request API_URL userData).
  destruct (srv n) as [e|[] [data|e]]; cbn; try (split; reflexivity);
    destruct data; cbn; split; try split; reflexivity.
Qed.

Lemma login_register_all_or_nothing_witness :
  let signed_in :=
    AuthProvider.login "" (JStr "a@b.c") (JStr "pw") login_server 0 in
  let registered := AuthProvider.register "" JNull login_server 0 in
  match outcome_of signed_in with
  | Ret data =>
      login_server 0 = Response true (inl data) /\
      trace_of signed_in
      = Fetch (credentials_request "" (JStr "a@b.c") (JStr "pw"))
        :: open_session data
  | Throw _ =>
      trace_of signed_in
      = [Fetch (credentials_request "" (JStr "a@b.c") (JStr "pw"))]
  end /\
  match outcome_of registered with
  | Ret data =>
      login_server 0 = Response true (inl data) /\
      trace_of registered = Fetch (register_request "" JNull) :: open_session data
  | Throw _ => trace_of registered = [Fetch (register_request "" JNull)]
  end.
Proof.
  apply (login_register_all_or_nothing "" (JStr "a@b.c") (JStr "pw") JNull
           login_server 0).
  intros data E. inversion E. reflexivity.
Defined.



(** ** The oracle conversation *)

Definition oracle_request (API_URL : jsstring) (token : jsval)
    (audioEnabled : bool) (text : jsstring) : request :=
  {| url := API_URL +++ (if audioEnabled then lit "/api/oracle/speak"
                         else lit "/api/oracle/chat");
     method := "POST";
     headers := [content_type_json; bearer token];
     body_of := JsonBody (JObj [field "message" (JStr text)]) |}.

Definition user_message (text : jsstring) : jsval :=
  JObj [field "role" (JStr "user"); field "content" (JStr text)].

Definition oracle_message (data : jsval) : jsval :=
  JObj [field "role" (JStr "oracle");
        field "content" (js_or (opt_get data "text") (opt_get data "response"));
        field "audio" (opt_get data "audio_base64")].

(** The messages of the error toasts shown. *)
Definition errors_shown (tr : list event) : list jsstring :=
  flat_map (fun e => match e with ToastError m => [m] | _ => [] end) tr.

Lemma sendMessage_shape (API_URL : jsstring) (token : jsval)
    (audioEnabled : bool) (text : jsstring) (srv : server) (n : nat) :
  is_empty (trim text) = false ->
  let r := VoiceOracle.sendMessage API_URL token audioEnabled text srv n in
  outcome_of r = Ret tt /\
  requests (trace_of r) = [oracle_request API_URL token audioEnabled text] /\
  In (Update VoiceOracle_messages (Append (user_message text))) (trace_of r).
Proof.
  intros Hb. cbv zeta. unfold VoiceOracle.sendMessage. rewrite Hb.
  run_ops. fold (oracle_request API_URL token audioEnabled text).
  fold (user_message text).
  destruct audioEnabled;
    (destruct (srv n) as [e|[] [data|e]]; cbn [app];
     try (destruct data; cbn [app]);
     try (destruct (truthy (opt_get _ "text")); cbn [app]);
     try (destruct (truthy _ && _)%bool; cbn [app]);
     try (destruct (truthy (opt_get _ "audio_base64")); cbn [app]));
    (split; [reflexivity | split; [reflexivity | left; reflexivity]]).
Qed.

(** X5.  [sendMessage] with a text that is not blank sends one request, to
    [/api/oracle/speak] when audio is enabled and to [/api/oracle/chat]
    otherwise, clears the input and ends with the loading flag cleared.  The
    message of the user is appended at once.  When the reply is a successful
    response with a JSON body that is not [null], the answer of the oracle is
    appended after it and no error is shown; after every other reply only
    the message of the user is appended and the error toast is shown.  The
    audio of the body is taken to be a value that [playAudio] can put into
    its data URL. *)
Theorem sendMessage_conversation (API_URL : jsstring) (token : jsval)
    (audioEnabled : bool) (text : jsstring) (srv : server) (n : nat)
    (st : store) (old : list jsval) :
  is_empty (trim text) = false ->
  st VoiceOracle_messages = JArr old ->
  (forall data, srv n = Response true (inl data) ->
     converts (opt_get data "audio_base64") = true) ->
  let tr := trace_of (VoiceOracle.sendMessage API_URL token audioEnabled text
                        srv n) in
  let st' := commit tr st in
  let answered data :=
    st' VoiceOracle_messages
    = JArr (old ++ [user_message text; oracle_message data]) /\
    errors_shown tr = [] in
  let failed :=
    st' VoiceOracle_messages = JArr (old ++ [user_message text]) /\
    errors_shown tr = [lit "The Oracle is meditating. Try again."] in
  requests tr = [oracle_request API_URL token audioEnabled text] /\
  st' VoiceOracle_input = JStr "" /\
  st' VoiceOracle_loading = JBool false /\
  match srv n with
  | Response true (inl data) => if nullish data then failed else answered data
  | _ => failed
  end.
Proof.
  intros Hb Hold _. cbv zeta. unfold VoiceOracle.sendMessage. rewrite Hb.
  run_ops. fold (oracle_request API_URL token audioEnabled text).
  fold (user_message text).
  destruct audioEnabled;
    (destruct (srv n) as [e|[] [data|e]]; cbn [app];
     try (destruct data; cbn [app nullish]);
     try (destruct (truthy (opt_get _ "text")) eqn:Ht; cbn [app]);
     try (destruct (truthy _ && _)%bool; cbn [app]);
     try (destruct (truthy (opt_get _ "audio_base64")); cbn [app])).
  all: rewrite !commit_writes; cbn; rewrite Hold; cbn; rewrite <- ?app_assoc.
  all: split; [reflexivity | split; [reflexivity | split; [reflexivity|]]].
  all: split; [|reflexivity];
       unfold oracle_message, js_or; rewrite ?Ht; reflexivity.
Qed.


Lemma detached_returns (m : M unit) srv n :
  outcome_of (m srv n) = Ret tt -> detached m srv n = m srv n.
Proof.
  unfold detached, try_catch, outcome_of.
  destruct (m srv n) as [[[[]|e] n'] tr]; [reflexivity | discriminate].
Qed.

(** X7.  The [onstop] handler of [startRecording] uploads the recording; a
    transcription that is a string and not blank is then sent to the oracle
    as the message of the user.  Without a truthy transcription, or when the
    response is not ok, nothing happens after the upload; when the upload
    fails, the voice-recognition error toast is shown. *)
Theorem onstop_sends_transcription (c : App.closure) (srv : server) (n : nat) :
  let tr := trace_of (App.perform c App.startRecording_onstop srv n) in
  (forall data text,
     srv n = Response true (inl data) ->
     opt_get data "transcription" = JStr text ->
     is_empty (trim text) = false ->
     requests tr
     = [listen_request c;
        oracle_request (App.API_URL c) (App.token c) (App.audioEnabled c) text]
     /\ In (Update VoiceOracle_messages (Append (user_message text))) tr) /\
  (forall data,
     srv n = Response true (inl data) -> nullish data = false ->
     truthy (opt_get data "transcription") = false ->
     tr = [Fetch (listen_request c)]) /\
  (forall body, srv n = Response false body -> tr = [Fetch (listen_request c)]) /\
  (forall e, srv n = NetworkError e ->
     tr = [Fetch (listen_request c);
           ToastError "Voice recognition failed"]).
Proof.
  cbv zeta. cbn [App.perform]. unfold VoiceOracle.onstop.
  cbv beta iota zeta
      delta [try_catch bind fetch emit trace_of get json ok ret throw fst snd].
  fold (listen_request c).
  repeat split.
  - rewrite H. destruct data; try discriminate H0.
    cbn in H0. cbn. rewrite H0. cbn.
    destruct text as [|ch text]; [discriminate H1|].
    destruct (sendMessage_shape (App.API_URL c) (App.token c)
                (App.audioEnabled c) (ch :: text) srv (S n) H1)
      as (Ho & Hr & _).
    rewrite (detached_returns _ srv (S n) Ho).
    unfold outcome_of, trace_of in *.
    destruct (VoiceOracle.sendMessage _ _ _ _ srv (S n)) as [[o n'] tr].
    cbn in *. subst o. cbn. unfold requests in Hr. now rewrite Hr.
  - rewrite H. destruct data; try discriminate H0.
    cbn in H0. cbn. rewrite H0. cbn.
    destruct text as [|ch text]; [discriminate H1|].
    destruct (sendMessage_shape (App.API_URL c) (App.token c)
                (App.audioEnabled c) (ch :: text) srv (S n) H1)
      as (Ho & _ & Hi).
    rewrite (detached_returns _ srv (S n) Ho).
    unfold outcome_of, trace_of in *.
    destruct (VoiceOracle.sendMessage _ _ _ _ srv (S n)) as [[o n'] tr].
    cbn in *. subst o. cbn. right. exact Hi.
  - intros data Hs Hn Ht. rewrite Hs.
    destruct data; try discriminate Hn; cbn in *; try rewrite Ht; reflexivity.
  - intros body Hs. rewrite Hs. reflexivity.
  - intros e Hs. rewrite Hs. reflexivity.
Qed.

Definition oracle_server : server :=
  fun _ =>
    Response true
      (inl (JObj [field "text" (JStr "Be still.");
                  field "audio_base64" (JStr "QUJD")])).

Definition empty_store : store := fun _ => JArr [].

Lemma sendMessage_conversation_witness :
  let tr := trace_of (VoiceOracle.sendMessage "" (JStr "tok") true "hello"
                        oracle_server 0) in
  let st' := commit tr empty_store in
  requests tr = [oracle_request "" (JStr "tok") true "hello"] /\
  st' VoiceOracle_input = JStr "" /\
  st' VoiceOracle_loading = JBool false /\
  st' VoiceOracle_messages
  = JArr [user_message "hello";
          oracle_message (JObj [field "text" (JStr "Be still.");
                                field "audio_base64" (JStr "QUJD")])] /\
  errors_shown tr = [].
Proof.
  apply (sendMessage_conversation "" (JStr "tok") true "hello" oracle_server 0
           empty_store []); try reflexivity.
  intros data E. inversion E. reflexivity.
Defined.


(** ** Drawing and flipping the cards *)










(** The premium gate of [drawCards] lets the draw through. *)
Definition may_draw (c : App.closure) : bool :=
  negb (negb (truthy (opt_get (App.user c) "is_premium"))
        && jsstring_eqb (App.spreadType c) "celtic_cross").









(** [array.length] *)
Definition array_length (v : jsval) : option nat :=
  match v with
  | JArr l => Some (length l)
  | _ => None
  end.


Definition reading_of_three : jsval :=
  JObj [field "cards" (JArr (Backend.records (fun i => decimal i)
                               (fun _ => false) 0 [5; 70; 12]));
        field "interpretation" (JStr "...")].


Definition failed_draw (c : App.closure) (stored : list event) : list event :=
  [Update TarotPage_loading (SetTo (JBool true));
   Update TarotPage_reading (SetTo JNull);
   Update TarotPage_flippedCards (SetTo (JArr []));
   Fetch (draw_request c)]
  ++ stored
  ++ [ToastError "The cards are not aligned. Try again.";
      Update TarotPage_loading (SetTo (JBool false))].

Lemma forEach_not_array v f srv n :
  array_length v = None ->
  exists e, forEach v f srv n = (Throw e, n, []).
Proof.
  intros H. destruct v; try discriminate H; eexists; reflexivity.
Qed.

(** X9.  A draw that the gate lets through and that fails shows the error toast
    and clears the loading flag, with the reading reset to [null].  When the
    response is successful but the [cards] of its body is not an array, the
    body is stored as the reading all the same before the toast, no card is
    ever flipped, and the cards display of that reading cannot be
    rendered. *)
Theorem drawCards_failures (c : App.closure) (srv : server) (n : nat) :
  may_draw c = true ->
  let tr := trace_of (App.perform c App.drawCards srv n) in
  (forall data,
     srv n = Response true (inl data) ->
     array_length (opt_get data "cards") = None ->
     tr = failed_draw c [Update TarotPage_reading (SetTo data)] /\
     forall flippedCards, TarotPage.cards_display data flippedCards = None) /\
  ((forall data, srv n <> Response true (inl data)) -> tr = failed_draw c []).
Proof.
  unfold may_draw. intros Hg. apply negb_true_iff in Hg.
  cbv zeta. cbn [App.perform]. unfold TarotPage.drawCards. rewrite Hg.
  fold (draw_request c).
  cbv beta iota zeta
      delta [try_finally try_catch bind fetch set emit get json ok ret throw
             trace_of fst snd negb].
  split.
  - intros data Hs Hc. rewrite Hs. split.
    + destruct data; cbn in Hc |- *; try reflexivity.
      match goal with
      | |- context [forEach ?v ?f srv (S n)] =>
          destruct (forEach_not_array v f srv (S n) Hc) as (e & ->)
      end.
      reflexivity.
    + intros flippedCards. unfold TarotPage.cards_display.
      destruct (opt_get data "cards"); try reflexivity. discriminate Hc.
  - intros Hs. destruct (srv n) as [e|[] [data|e]]; try reflexivity.
    now destruct (Hs data).
Qed.

Lemma drawCards_requests (c : App.closure) (srv : server) (n : nat) :
  may_draw c = true ->
  requests (trace_of (App.perform c App.drawCards srv n)) = [draw_request c].
Proof.
  unfold may_draw. intros Hg. apply negb_true_iff in Hg.
  cbn [App.perform]. unfold TarotPage.drawCards. rewrite Hg.
  fold (draw_request c).
  cbv beta iota zeta
      delta [try_finally try_catch bind fetch set emit get json ok ret throw
             trace_of fst snd negb].
  destruct (srv n) as [e|[] [data|e]]; try reflexivity.
  destruct data; try reflexivity.
  match goal with
  | |- context [forEach ?v ?f srv (S n)] =>
      destruct (forEach_timers v
                  (fun idx => SetTimeout (flip_card idx) (500 + idx * 800))
                  srv (S n)) as [_ Hr];
        [intros i; split; reflexivity|];
        change (fun (_ : jsval) (idx : nat) =>
                  emit (SetTimeout (flip_card idx) (500 + idx * 800)))
          with f in Hr;
        unfold trace_of in Hr;
        destruct (forEach v f srv (S n)) as [[o n'] tr]
  end.
  cbn [snd] in Hr.
  destruct o; cbn [app snd fst];
    match goal with
    | |- requests (?a :: ?b :: ?c0 :: ?d :: ?e :: ?t) = _ =>
        change (a :: b :: c0 :: d :: e :: t) with ([a; b; c0; d; e] ++ t)
    end;
    rewrite !requests_app, Hr; reflexivity.
Qed.

(** X10.  Once a payment-status check has seen the payment as paid, the user of
    the auth context is premium: the gate of [drawCards] lets every spread
    through, ['celtic_cross'] included, and the draw sends its request. *)
Theorem paid_check_unlocks_every_spread (c : App.closure) (srv : server)
    (n : nat) (st : store) :
  reports_paid (srv n) = true ->
  let st' := commit (trace_of (App.perform c App.checkPaymentStatus srv n)) st in
  let c' := with_user c (st' AuthProvider_user) in
  st' AuthProvider_user = premium_user c /\
  may_draw c' = true /\
  forall srv' n',
    requests (trace_of (App.perform c' App.drawCards srv' n'))
    = [draw_request c'].
Proof.
  intros Hp. cbv zeta.
  assert (Hu : commit (trace_of (App.perform c App.checkPaymentStatus srv n)) st
                 AuthProvider_user = premium_user c).
  { now rewrite commit_writes, checkPaymentStatus_writes, Hp. }
  rewrite Hu.
  assert (Hd : may_draw (with_user c (premium_user c)) = true).
  { unfold may_draw, with_user, premium_user. cbn [App.user].
    now rewrite opt_get_spread_same. }
  repeat split; [exact Hd|].
  intros srv' n'. now apply drawCards_requests.
Qed.

Lemma paid_check_unlocks_every_spread_witness :
  let c := example_closure in
  let st' :=
    commit (trace_of (App.perform c App.checkPaymentStatus (paying_server 0) 0))
      empty_store in
  let c' := with_user c (st' AuthProvider_user) in
  st' AuthProvider_user = premium_user c /\
  may_draw c' = true /\
  forall srv' n',
    requests (trace_of (App.perform c' App.drawCards srv' n'))
    = [draw_request c'].
Proof.
  apply (paid_check_unlocks_every_spread example_closure (paying_server 0) 0
           empty_store).
  reflexivity.
Defined.

Lemma drawCards_failures_witness :
  let c := premium_closure in
  let tr := trace_of (App.perform c App.drawCards locked_server 0) in
  (forall data,
     locked_server 0 = Response true (inl data) ->
     array_length (opt_get data "cards") = None ->
     tr = failed_draw c [Update TarotPage_reading (SetTo data)] /\
     forall flippedCards, TarotPage.cards_display data flippedCards = None) /\
  ((forall data, locked_server 0 <> Response true (inl data)) ->
   tr = failed_draw c []).
Proof.
  apply (drawCards_failures premium_closure locked_server 0). reflexivity.
Defined.

(** ** Sharing a post *)

Definition post_request (API_URL : jsstring) (token : jsval)
    (newPost category : jsstring) : request :=
  {| url := API_URL +++ "/api/community/post";
     method := "POST";
     headers := [content_type_json; bearer token];
     body_of := JsonBody (JObj [field "content" (JStr newPost);
                                field "category" (JStr category)]) |}.

(** X11.  [createPost] with a text that is not blank sends one request.  On a
    successful response the new post is put in front of the posts of the
    render, the input is cleared and the success toast shown.  A response
    that is not ok changes nothing and shows no toast; a failed request or an
    unreadable body shows the error toast and changes no state. *)
Theorem createPost_outcomes (API_URL : jsstring) (token : jsval)
    (posts : list jsval) (newPost category : jsstring) (srv : server)
    (n : nat) :
  is_empty (trim newPost) = false ->
  let tr := trace_of (Community.createPost API_URL token (JArr posts) newPost
                        category srv n) in
  let req := post_request API_URL token newPost category in
  match srv n with
  | Response true (inl post) =>
      tr = [Fetch req;
            Update Community_posts (SetTo (JArr (post :: posts)));
            Update Community_newPost (SetTo (JStr ""));
            ToastSuccess "Your insight has been shared"]
  | Response false _ => tr = [Fetch req]
  | Response true (inr _) | NetworkError _ =>
      tr = [Fetch req; ToastError "Failed to share"]
  end.
Proof.
  intros Hb. cbv zeta. unfold Community.createPost. rewrite Hb.
  run_ops. fold (post_request API_URL token newPost category).
  destruct (srv n) as [e|[] [data|e]]; reflexivity.
Qed.

Lemma createPost_outcomes_witness :
  trace_of (Community.createPost "" (JStr "tok") (JArr []) "hello" "general"
              locked_server 0)
  = [Fetch (post_request "" (JStr "tok") "hello" "general")].
Proof.
  apply (createPost_outcomes "" (JStr "tok") [] "hello" "general"
           locked_server 0).
  reflexivity.
Defined.

(** ** Starting the checkout *)





(** ** Loading flags *)

Lemma trace_bind_emit {B} e (k : unit -> M B) srv n :
  trace_of (bind (emit e) k srv n) = e :: trace_of (k tt srv n).
Proof.
  unfold bind, emit, trace_of. destruct (k tt srv n) as [[o n'] tr].
  reflexivity.
Qed.

Lemma trace_try_finally_emit {A} (m : M A) e srv n :
  trace_of (try_finally m (emit e) srv n) = trace_of (m srv n) ++ [e].
Proof.
  unfold try_finally, emit, trace_of. destruct (m srv n) as [[o n'] tr].
  reflexivity.
Qed.

Lemma writes_cons h e tr :
  writes h (e :: tr)
  = match e with
    | Update h' u => if hook_eq_dec h h' then [u] else []
    | _ => []
    end ++ writes h tr.
Proof. reflexivity. Qed.

(** The effect is not a write to the hook. *)
Definition quiet_on (h : hook) (e : event) : Prop :=
  match e with
  | Update h' _ => h' <> h
  | _ => True
  end.

Lemma writes_quiet h {A} (m : M A) srv n :
  emits (quiet_on h) m -> writes h (trace_of (m srv n)) = [].
Proof.
  intros Hm. specialize (Hm srv n).
  induction Hm as [|e tr He _ IH]; [reflexivity|].
  rewrite writes_cons, IH, app_nil_r.
  destruct e; try reflexivity. cbn in He.
  destruct (hook_eq_dec h h0); [congruence | reflexivity].
Qed.

(** The loading flag that an operation raises or clears. *)
Definition loading_hook (op : App.operation) : option hook :=
  match op with
  | App.fetchUser => Some AuthProvider_loading
  | App.handleSubmit => Some AuthPage_loading
  | App.Dashboard_fetchSoulprint => Some Dashboard_loading
  | App.sendMessage => Some VoiceOracle_loading
  | App.drawCards => Some TarotPage_loading
  | App.startScan_onstop => Some BioScanner_loading
  | App.fetchPosts => Some Community_loading
  | App.Profile_fetchSoulprint => Some Profile_loading
  | App.checkPaymentStatus => Some PremiumPage_loading
  | App.search => Some DatabasePage_loading
  | _ => None
  end.

Ltac quiet_side := cbn; first [exact I | discriminate].

Ltac balance :=
  unfold set;
  repeat rewrite trace_bind_emit;
  rewrite trace_try_finally_emit;
  repeat rewrite writes_cons;
  rewrite writes_app;
  rewrite writes_quiet by (emits_all quiet_side);
  cbn.

(** X13.  No operation leaves its loading flag raised: whatever the backend
    replies, the writes of an operation to its loading flag are none, a
    single [false], or [true] followed by [false]. *)
Theorem loading_flag_never_left_raised (c : App.closure) (op : App.operation)
    (h : hook) (srv : server) (n : nat) :
  loading_hook op = Some h ->
  let w := writes h (trace_of (App.perform c op srv n)) in
  w = [] \/ w = [SetTo (JBool false)]
  \/ w = [SetTo (JBool true); SetTo (JBool false)].
Proof.
  intros Hh. cbv zeta.
  destruct op; inversion Hh; subst h; clear Hh; cbn [App.perform].
  - unfold AuthProvider.fetchUser. balance. right; left; reflexivity.
  - unfold AuthPage.handleSubmit. balance. right; right; reflexivity.
  - unfold Dashboard.fetchSoulprint. balance. right; left; reflexivity.
  - unfold VoiceOracle.sendMessage.
    destruct (is_empty (trim (App.text c))); [left; reflexivity|].
    cbv zeta. balance. right; right; reflexivity.
  - unfold TarotPage.drawCards.
    destruct (negb _ && _)%bool; [left; reflexivity|].
    balance. right; right; reflexivity.
  - unfold BioScanner.onstop, BioScanner.onloadend. cbv zeta. balance.
    right; right; reflexivity.
  - unfold Community.fetchPosts. balance. right; left; reflexivity.
  - unfold Profile.fetchSoulprint. balance. right; left; reflexivity.
  - unfold PremiumPage.checkPaymentStatus. balance. right; right; reflexivity.
  - unfold DatabasePage.search.
    destruct (is_empty (trim (App.query c))); [left; reflexivity|].
    balance. right; right; reflexivity.
Qed.

Lemma loading_flag_never_left_raised_witness :
  let w := writes TarotPage_loading
             (trace_of (App.perform premium_closure App.drawCards
                          locked_server 0)) in
  w = [] \/ w = [SetTo (JBool false)]
  \/ w = [SetTo (JBool true); SetTo (JBool false)].
Proof.
  apply (loading_flag_never_left_raised premium_closure App.drawCards
           TarotPage_loading locked_server 0).
  reflexivity.
Defined.

(** ** Data received from the backend *)

(** The hook in which an operation stores what it fetched. *)
Definition data_hook (op : App.operation) : option hook :=
  match op with
  | App.Dashboard_fetchSoulprint => Some Dashboard_soulprint
  | App.Profile_fetchSoulprint => Some Profile_soulprint
  | App.startScan_onstop => Some BioScanner_result
  | App.fetchPosts => Some Community_posts
  | App.search => Some DatabasePage_results
  | _ => None
  end.

(** What the operation stores for the body of a successful response. *)
Definition received (op : App.operation) (data : jsval) : list updater :=
  match op with
  | App.fetchPosts =>
      if nullish data then []
      else [SetTo (js_or (opt_get data "posts") (JArr []))]
  | App.search =>
      if nullish data then []
      else [SetTo (js_or (opt_get data "results") (JArr []))]
  | _ => [SetTo data]
  end.

(** The operation gets as far as its request: [search] does not when
    [encodeURIComponent] throws on the query. *)
Definition reaches_backend (c : App.closure) (op : App.operation) : bool :=
  match op with
  | App.search =>
      match App.encodeURIComponent c (App.query c) with
      | inl _ => true
      | inr _ => false
      end
  | _ => true
  end.

(** X14.  The soulprint, the scan result, the posts and the search results are
    written only from the body of a successful response, and at most once;
    after any other reply the hook keeps its value, and so it does when
    [search] sends nothing because [encodeURIComponent] throws on the query.
    The posts and the search results fall back to the empty array when the
    body has no truthy [posts] or [results], so that they are never set to a
    falsy value. *)
Theorem data_only_from_successful_responses (c : App.closure)
    (op : App.operation) (h : hook) (srv : server) (n : nat) :
  data_hook op = Some h ->
  (op = App.search -> is_empty (trim (App.query c)) = false) ->
  let w := writes h (trace_of (App.perform c op srv n)) in
  w = (if reaches_backend c op
       then match srv n with
            | Response true (inl data) => received op data
            | _ => []
            end
       else []) /\
  (forall st, w = [] -> commit (trace_of (App.perform c op srv n)) st h = st h) /\
  (op = App.fetchPosts \/ op = App.search ->
   forall v, In (SetTo v) w -> truthy v = true).
Proof.
  intros Hh Hq. cbv zeta.
  assert (Hw :
    writes h (trace_of (App.perform c op srv n))
    = if reaches_backend c op
      then match srv n with
           | Response true (inl data) => received op data
           | _ => []
           end
      else []).
  { destruct op; inversion Hh; subst h; clear Hh;
      cbn [App.perform reaches_backend];
      try (unfold DatabasePage.search; rewrite (Hq eq_refl);
           destruct (App.encodeURIComponent c (App.query c))
             as [encoded|message]);
      run_ops; try reflexivity;
      (destruct (srv n) as [e|[] [data|e]]; try reflexivity;
       destruct data; reflexivity). }
  split; [exact Hw|]. split.
  - intros st. apply commit_untouched.
  - intros Hop v. rewrite Hw.
    destruct (reaches_backend c op); [|intros []].
    destruct (srv n) as [e|[] [data|e]]; try (intros []).
    destruct Hop as [-> | ->]; cbn [received];
      (destruct (nullish data); [intros []|]);
      (intros [Hv|[]]; inversion Hv; unfold js_or;
       match goal with
       | |- truthy (if truthy ?x then _ else _) = true =>
           destruct (truthy x) eqn:Hx; [exact Hx | reflexivity]
       end).
Qed.

Lemma data_only_from_successful_responses_witness :
  let w := writes Community_posts
             (trace_of (App.perform example_closure App.fetchPosts
                          locked_server 0)) in
  w = [] /\
  (forall st, w = [] ->
     commit (trace_of (App.perform example_closure App.fetchPosts
                         locked_server 0)) st Community_posts
     = st Community_posts) /\
  (App.fetchPosts = App.fetchPosts \/ App.fetchPosts = App.search ->
   forall v, In (SetTo v) w -> truthy v = true).
Proof.
  apply (data_only_from_successful_responses example_closure App.fetchPosts
           Community_posts locked_server 0).
  - reflexivity.
  - discriminate.
Defined.

(** ** The end of a polling run *)

(** The time of the last effect. *)
Definition finish_time (tr : list (nat * event)) : nat := last (map fst tr) 0.

Lemma poll_trace_nonempty c srv k a n t : poll_trace c srv k a n t <> [].
Proof. destruct k; cbn; [|destruct (reports_paid (srv n))]; discriminate. Qed.

Lemma poll_trace_final c srv st k : forall a n t,
  let tr := poll_trace c srv k a n t in
  let st' := commit (map snd tr) st in
  match first_paid_from srv n k with
  | Some j =>
      st' PaymentSuccess_status = JStr "success" /\
      st' AuthProvider_user = premium_user c /\
      finish_time tr = t + 2000 * (j - n)
  | None =>
      st' PaymentSuccess_status = JStr "timeout" /\
      st' AuthProvider_user = st AuthProvider_user /\
      finish_time tr = t + 2000 * k
  end.
Proof.
  unfold first_paid_from, finish_time.
  induction k as [|k IH]; intros a n t; cbv zeta.
  - cbn [seq find poll_trace]. cbn. repeat split. lia.
  - cbn [seq find poll_trace].
    destruct (reports_paid (srv n)) eqn:Hp.
    + cbn. rewrite Nat.sub_diag. repeat split. lia.
    + specialize (IH (a + 1) (S n) (t + 2000)). cbv zeta in IH.
      cbn [map snd fst commit fold_left apply_event].
      assert (Hl : forall l : list nat, l <> [] ->
                last (t :: t :: l) 0 = last l 0).
      { intros l Hl. destruct l; [congruence | reflexivity]. }
      rewrite Hl by (intros E; apply map_eq_nil in E;
                     now apply poll_trace_nonempty in E).
      destruct (find _ (seq (S n) k)) as [j|] eqn:Hj.
      * destruct IH as (Hs & Hu & Ht). repeat split; try assumption.
        apply find_some in Hj as [Hin _]. apply in_seq in Hin.
        unfold commit in Ht. rewrite Ht. lia.
      * destruct IH as (Hs & Hu & Ht). repeat split; try assumption.
        rewrite Ht. lia.
Qed.

(** X15.  A polling run ends with the status ['success'] and a premium user when
    one of the five replies reports the payment as paid, 2000 ms after the
    start for every reply before it; otherwise it ends with the status
    ['timeout'] and the user unchanged, 5 * 2000 ms after the start.  The status
    never stays ['checking']. *)
Theorem poll_final_status (c : App.closure) (srv : server) (fuel : nat)
    (st : store) :
  5 <= fuel ->
  exists tr,
    App.polling_run c fuel srv = Some tr /\
    let st' := commit (map snd tr) st in
    match first_paid_from srv 0 5 with
    | Some j =>
        st' PaymentSuccess_status = JStr "success" /\
        st' AuthProvider_user = premium_user c /\
        finish_time tr = 2000 * j
    | None =>
        st' PaymentSuccess_status = JStr "timeout" /\
        st' AuthProvider_user = st AuthProvider_user /\
        finish_time tr = 2000 * 5
    end.
Proof.
  intros Hf. exists (poll_trace c srv 5 0 0 0).
  split; [now apply polling_run_trace|].
  pose proof (poll_trace_final c srv st 5 0 0 0) as H. cbv zeta in H |- *.
  destruct (first_paid_from srv 0 5) as [j|].
  - now rewrite Nat.sub_0_r in H.
  - exact H.
Qed.

Lemma poll_final_status_witness :
  exists tr,
    App.polling_run example_closure 5 (paying_server 2) = Some tr /\
    let st' := commit (map snd tr) empty_store in
    match first_paid_from (paying_server 2) 0 5 with
    | Some j =>
        st' PaymentSuccess_status = JStr "success" /\
        st' AuthProvider_user = premium_user example_closure /\
        finish_time tr = 2000 * j
    | None =>
        st' PaymentSuccess_status = JStr "timeout" /\
        st' AuthProvider_user = empty_store AuthProvider_user /\
        finish_time tr = 2000 * 5
    end.
Proof.
  apply (poll_final_status example_closure (paying_server 2) 5 empty_store).
  apply le_n.
Defined.

(** ** Where a location leads *)

(** What a location leads to, given the element [e] of the route that it
    matched: a rendered [<Navigate>] changes the location to its target,
    which is matched again; the result is the location and the view shown
    once no redirect is rendered.  [None]: more than [fuel] redirects. *)
Fixpoint resolve (fuel : nat) (user : jsval) (loading : bool)
    (path : jsstring) (e : Router.element)
  : option (jsstring * Router.view) :=
  match fuel with
  | 0 => None
  | S fuel' =>
      match Router.render user loading e with
      | Router.Redirect to _ =>
          resolve fuel' user loading to (Router.match_route to)
      | v => Some (path, v)
      end
  end.

(** The elements of the route table. *)
Definition route_elements : list Router.element := map snd Router.routes.

Lemma redirect_targets :
  Router.match_route "/auth" = Router.El Router.AuthPage /\
  Router.match_route "/dashboard"
  = Router.Protected (Router.El Router.Dashboard).
Proof. split; reflexivity. Qed.

Lemma route_elements_cases (e : Router.element) :
  In e route_elements ->
  e = Router.El Router.AuthPage \/
  (exists c, e = Router.Protected (Router.El c)) \/
  e = Router.NavigateTo "/dashboard" true.
Proof.
  unfold route_elements, Router.routes. cbn [map snd In].
  intros H.
  repeat (destruct H as [<-|H];
          [first [ left; reflexivity
                 | right; left; eexists; reflexivity
                 | right; right; reflexivity ]|]).
  destruct H.
Qed.

(** Follows the redirects of a [resolve] whose session is known. *)
Ltac follow Hu :=
  repeat (cbn [resolve Router.render]; unfold Router.ProtectedRoute;
          rewrite ?Hu; cbn [negb truthy];
          rewrite ?(proj1 redirect_targets), ?(proj2 redirect_targets));
  try reflexivity.

(** X16.  Every location that matches a route leads somewhere within two
    redirects.  Without a user, once loading is finished, it leads to the auth
    page: at the location itself when it matched the [/auth] route, and at
    [/auth] otherwise.  With a user it leads to the auth page only when it
    matched the [/auth] route, and otherwise to a page below the navigation
    bar: the page of the route at the location itself, or the dashboard at
    [/dashboard] for the routes [/] and [*].  While the session is loading, a
    protected route shows the spinner and does not redirect. *)
Theorem every_location_resolves (user : jsval) (path : jsstring)
    (e : Router.element) :
  In e route_elements ->
  (truthy user = false ->
   resolve 3 user false path e
   = Some (match e with
           | Router.El _ => path
           | _ => lit "/auth"
           end, Router.Page Router.AuthPage)) /\
  (truthy user = true ->
   (e = Router.El Router.AuthPage /\
    resolve 3 user false path e = Some (path, Router.Page Router.AuthPage)) \/
   (exists c,
      e = Router.Protected (Router.El c) /\
      resolve 3 user false path e
      = Some (path, Router.Fragment [Router.Navigation; Router.Page c])) \/
   (e = Router.NavigateTo "/dashboard" true /\
    resolve 3 user false path e
    = Some (lit "/dashboard",
            Router.Fragment [Router.Navigation; Router.Page Router.Dashboard]))) /\
  (forall c, e = Router.Protected (Router.El c) ->
     resolve 3 user true path e = Some (path, Router.Spinner)).
Proof.
  intros Hin. split; [|split].
  - intros Hu.
    destruct (route_elements_cases e Hin) as [->|[[c ->]| ->]]; follow Hu.
  - intros Hu.
    destruct (route_elements_cases e Hin) as [->|[[c ->]| ->]].
    + left. split; reflexivity.
    + right; left. exists c. split; [reflexivity|]. follow Hu.
    + right; right. split; [reflexivity|]. follow Hu.
  - intros c ->. reflexivity.
Qed.

Lemma every_location_resolves_witness :
  resolve 3 JNull false "/nowhere" (Router.match_route "/nowhere")
  = Some (lit "/auth", Router.Page Router.AuthPage).
Proof.
  refine (proj1 (every_location_resolves JNull "/nowhere"
                   (Router.match_route "/nowhere") _) eq_refl).
  unfold route_elements. cbn. tauto.
Defined.

(** ** Logging out *)

(** X17.  [logout] removes the token from the local storage and sets token and
    user to [null]; whatever route the location shown next matches, it leads
    to the auth page, once the session is not loading: at the location itself
    when it matched the [/auth] route, and at [/auth] otherwise. *)
Theorem logout_ends_session (st : store) (srv : server) (n : nat)
    (path : jsstring) (e : Router.element) :
  truthy (st AuthProvider_loading) = false ->
  In e route_elements ->
  let tr := trace_of (AuthProvider.logout srv n) in
  let st' := commit tr st in
  In (LocalStorageRemove "yky_token") tr /\
  requests tr = [] /\
  st' AuthProvider_token = JNull /\
  st' AuthProvider_user = JNull /\
  resolve 3 (st' AuthProvider_user) (truthy (st' AuthProvider_loading)) path e
  = Some (match e with
          | Router.El _ => path
          | _ => lit "/auth"
          end, Router.Page Router.AuthPage).
Proof.
  intros Hl Hin. cbv zeta. run_ops.
  repeat split; try (left; reflexivity).
  cbn [commit fold_left apply_event hook_eq_dec app].
  cbn. rewrite Hl.
  destruct (route_elements_cases e Hin) as [->|[[c ->]| ->]]; follow Hl.
Qed.

Lemma logout_ends_session_witness :
  let tr := trace_of (AuthProvider.logout pending_server 0) in
  let st' := commit tr premium_store in
  In (LocalStorageRemove "yky_token") tr /\
  requests tr = [] /\
  st' AuthProvider_token = JNull /\
  st' AuthProvider_user = JNull /\
  resolve 3 (st' AuthProvider_user) (truthy (st' AuthProvider_loading))
    "/premium" (Router.Protected (Router.El Router.PremiumPage))
  = Some (lit "/auth", Router.Page Router.AuthPage).
Proof.
  apply (logout_ends_session premium_store pending_server 0 "/premium"
           (Router.Protected (Router.El Router.PremiumPage))).
  - reflexivity.
  - unfold route_elements. cbn. tauto.
Defined.

(** ** The payment pages without a session id *)

Lemma checkPaymentStatus_returns (c : App.closure) (srv : server) (n : nat) :
  outcome_of (App.perform c App.checkPaymentStatus srv n) = Ret tt.
Proof.
  run_ops. destruct (srv n) as [e|[] [data|e]]; try reflexivity.
  destruct data; try reflexivity.
  destruct (strict_eq_str _ _); reflexivity.
Qed.

Lemma pollPaymentStatus_returns (c : App.closure) (a : nat) (srv : server)
    (n : nat) :
  outcome_of (poll c a srv n) = Ret tt.
Proof.
  destruct (Nat.lt_ge_cases a 5) as [Ha|Ha].
  - destruct (reports_paid (srv n)) eqn:Hp.
    + now rewrite poll_paid.
    + now rewrite poll_retry.
  - now rewrite poll_timeout.
Qed.

(** X18.  The effects of [PaymentSuccess] and of [PremiumPage] contact the backend
    only when the location carries a [session_id]: without one they do
    nothing, so that no status is ever set; with one they are
    [pollPaymentStatus()] and [checkPaymentStatus()]. *)
Theorem payment_effects_need_session_id (c : App.closure) (srv : server)
    (n : nat) :
  let polled :=
    PaymentSuccess.effect (App.API_URL c) (App.user c) (App.token c)
      (App.sessionId c) srv n in
  let checked :=
    PremiumPage.effect (App.API_URL c) (App.user c) (App.token c)
      (App.sessionId c) srv n in
  (truthy (App.sessionId c) = false ->
   polled = (Ret tt, n, []) /\ checked = (Ret tt, n, [])) /\
  (truthy (App.sessionId c) = true ->
   polled = poll c 0 srv n /\
   checked = App.perform c App.checkPaymentStatus srv n).
Proof.
  cbv zeta. unfold PaymentSuccess.effect, PremiumPage.effect. split.
  - intros ->. split; reflexivity.
  - intros ->. cbn [when]. split.
    + apply detached_returns. apply pollPaymentStatus_returns.
    + apply detached_returns. apply (checkPaymentStatus_returns c).
Qed.

Lemma payment_effects_need_session_id_witness :
  let c := example_closure in
  PaymentSuccess.effect (App.API_URL c) (App.user c) (App.token c)
    (App.sessionId c) pending_server 0
  = poll c 0 pending_server 0.
Proof.
  exact (proj1 (proj2 (payment_effects_need_session_id example_closure
                         pending_server 0) eq_refl)).
Defined.

(** ** Recording a bio-scan *)

Module ScanRecorder.
(** [MediaRecorder.state] *)
Inductive recorder_state := inactive | recording | paused.

(** The recording side of [BioScanner]: [mediaRecorderRef.current], the
    [isRecording] state, the pending auto-stop timers, each with its delay
    and the [isRecording] its callback closes over, and the error toasts
    shown. *)
Record scanner := {
  recorder : option recorder_state;
  isRecording : bool;
  timers : list (N * bool);
  errors : list jsstring
}.

Definition initial : scanner :=
  {| recorder := None; isRecording := false; timers := []; errors := [] |}.

(** [stopScan] of a render whose [isRecording] is [captured]. *)
Definition stopScan (captured : bool) (s : scanner) : scanner :=
  match recorder s with
  | Some _ =>
      if captured then
        {| recorder := Some inactive;         (* mediaRecorderRef.current.stop() *)
           isRecording := false;              (* setIsRecording(false) *)
           timers := timers s;
           errors := errors s |}
      else s
  | None => s
  end.

(** [startScan] of a render whose [isRecording] is [captured]; [granted]:
    the microphone is granted and the recorder is created. *)
Definition startScan (captured : bool) (granted : bool) (s : scanner)
  : scanner :=
  if granted then
    {| recorder := Some recording;            (* mediaRecorder.start() *)
       isRecording := true;                   (* setIsRecording(true) *)
       timers := timers s ++ [(30000%N, captured)];
       errors := errors s |}
  else
    {| recorder := recorder s;
       isRecording := isRecording s;
       timers := timers s;
       errors := errors s ++ [lit "Microphone access required"] |}.

(** The callback of the auto-stop timer, calling the [stopScan] of the
    render that [startScan] belongs to. *)
Definition auto_stop (captured : bool) (s : scanner) : scanner :=
  match recorder s with
  | Some recording => stopScan captured s
  | _ => s
  end.

(** [onClick={isRecording ? stopScan : startScan}] of the current render. *)
Definition click (granted : bool) (s : scanner) : scanner :=
  if isRecording s then stopScan (isRecording s) s
  else startScan (isRecording s) granted s.

(** The oldest pending timer fires. *)
Definition fire (s : scanner) : scanner :=
  match timers s with
  | (_, captured) :: rest =>
      auto_stop captured
        {| recorder := recorder s; isRecording := isRecording s;
           timers := rest; errors := errors s |}
  | [] => s
  end.

(** The states reached by clicking the scan button and by timers firing. *)
Inductive reachable : scanner -> Prop :=
| reach_initial : reachable initial
| reach_click granted s : reachable s -> reachable (click granted s)
| reach_fire s : reachable s -> reachable (fire s).
End ScanRecorder.

Lemma scan_timers_capture_false s :
  ScanRecorder.reachable s ->
  Forall (fun t => t = (30000%N, false)) (ScanRecorder.timers s).
Proof.
  induction 1 as [|granted s _ IH|s _ IH].
  - constructor.
  - unfold ScanRecorder.click, ScanRecorder.stopScan, ScanRecorder.startScan.
    destruct (ScanRecorder.isRecording s) eqn:Hr.
    + destruct (ScanRecorder.recorder s); exact IH.
    + destruct granted; cbn; [|exact IH].
      apply Forall_app. split; [exact IH | repeat constructor].
  - unfold ScanRecorder.fire.
    destruct (ScanRecorder.timers s) as [|[ms captured] rest] eqn:Ht;
      [now rewrite Ht|].
    inversion IH as [|t l Hh Hrest]; subst. inversion Hh; subst.
    unfold ScanRecorder.auto_stop, ScanRecorder.stopScan. cbn.
    destruct (ScanRecorder.recorder s) as [[]|]; exact Hrest.
Qed.

(** X19.  The auto-stop of the bio-scan never stops a recording.  [startScan] is
    the click handler only of a render whose [isRecording] is [false], and
    the [stopScan] that its 30 s timer calls closes over that value: in
    every state reached by clicks and timers, a timer that fires leaves the
    recorder and the [isRecording] state as they are.  Only a click stops
    the recording. *)
Theorem scan_auto_stop_has_no_effect (s : ScanRecorder.scanner) :
  ScanRecorder.reachable s ->
  ScanRecorder.recorder (ScanRecorder.fire s) = ScanRecorder.recorder s /\
  ScanRecorder.isRecording (ScanRecorder.fire s) = ScanRecorder.isRecording s /\
  (ScanRecorder.isRecording s = true ->
   ScanRecorder.recorder s = Some ScanRecorder.recording /\
   forall granted,
     ScanRecorder.recorder (ScanRecorder.click granted s)
     = Some ScanRecorder.inactive /\
     ScanRecorder.isRecording (ScanRecorder.click granted s) = false).
Proof.
  intros Hr.
  pose proof (scan_timers_capture_false s Hr) as Ht.
  split; [|split].
  - unfold ScanRecorder.fire.
    destruct (ScanRecorder.timers s) as [|[ms captured] rest]; [reflexivity|].
    inversion Ht as [|t l Hh _]; subst. inversion Hh; subst.
    unfold ScanRecorder.auto_stop, ScanRecorder.stopScan. cbn.
    destruct (ScanRecorder.recorder s) as [[]|]; reflexivity.
  - unfold ScanRecorder.fire.
    destruct (ScanRecorder.timers s) as [|[ms captured] rest]; [reflexivity|].
    inversion Ht as [|t l Hh _]; subst. inversion Hh; subst.
    unfold ScanRecorder.auto_stop, ScanRecorder.stopScan. cbn.
    destruct (ScanRecorder.recorder s) as [[]|]; reflexivity.
  - clear Ht.
    assert (Hinv : ScanRecorder.isRecording s = true ->
                   ScanRecorder.recorder s = Some ScanRecorder.recording).
    { induction Hr as [|granted s Hr IH|s Hr IH].
      - discriminate.
      - unfold ScanRecorder.click, ScanRecorder.stopScan,
          ScanRecorder.startScan.
        destruct (ScanRecorder.isRecording s) eqn:Hi.
        + rewrite (IH eq_refl). cbn. discriminate.
        + destruct granted; cbn; [reflexivity | congruence].
      - pose proof (scan_timers_capture_false s Hr) as Ht.
        unfold ScanRecorder.fire.
        destruct (ScanRecorder.timers s) as [|[ms captured] rest];
          [exact IH|].
        inversion Ht as [|t l Hh _]; subst. inversion Hh; subst.
        unfold ScanRecorder.auto_stop, ScanRecorder.stopScan. cbn.
        destruct (ScanRecorder.recorder s) as [[]|]; exact IH. }
    intros Hi. split; [now apply Hinv|].
    intros granted. unfold ScanRecorder.click, ScanRecorder.stopScan.
    rewrite Hi, (Hinv Hi). split; reflexivity.
Qed.

Lemma scan_auto_stop_has_no_effect_witness :
  let s := ScanRecorder.click true ScanRecorder.initial in
  ScanRecorder.recorder (ScanRecorder.fire s) = ScanRecorder.recorder s /\
  ScanRecorder.isRecording (ScanRecorder.fire s) = ScanRecorder.isRecording s /\
  (ScanRecorder.isRecording s = true ->
   ScanRecorder.recorder s = Some ScanRecorder.recording /\
   forall granted,
     ScanRecorder.recorder (ScanRecorder.click granted s)
     = Some ScanRecorder.inactive /\
     ScanRecorder.isRecording (ScanRecorder.click granted s) = false).
Proof.
  apply (scan_auto_stop_has_no_effect
           (ScanRecorder.click true ScanRecorder.initial)).
  apply ScanRecorder.reach_click. apply ScanRecorder.reach_initial.
Defined.

(** ** The cards display *)

Definition flipped_so_far (k : nat) : jsval :=
  JArr (map (fun idx => JNum (Z.of_nat idx)) (seq 0 k)).

Lemma includes_flipped_so_far k idx :
  TarotPage.includes (flipped_so_far k) idx = (idx <? k).
Proof.
  unfold flipped_so_far, TarotPage.includes.
  induction k as [|k IH]; [reflexivity|].
  rewrite seq_S, map_app, existsb_app, IH. cbn [map existsb Nat.add].
  rewrite orb_false_r.
  destruct (Z.eqb_spec (Z.of_nat k) (Z.of_nat idx));
    destruct (Nat.ltb_spec idx k); destruct (Nat.ltb_spec idx (S k));
    cbn [orb]; try reflexivity; lia.
Qed.

(** X20.  The cards display renders one card element per card of the reading, in
    order and keyed by index, provided that no card is [null] or [undefined]
    and that no [id] or [name] of a card is an object; once the first [k]
    flips have happened, exactly the first [k] cards are face up, a card is
    drawn reversed exactly when its record has a truthy [reversed], and it
    shows the [id] and the [name] of its record.  A [null] among the cards, or
    a card whose [id] or [name] is an object, makes the rendering throw. *)
Theorem cards_display_faces (reading : jsval) (cs : list jsval) (k : nat) :
  opt_get reading "cards" = JArr cs ->
  (Forall (fun card => renders card = true) cs ->
   exists els,
     TarotPage.cards_display reading (flipped_so_far k) = Some els /\
     length els = length cs /\
     map TarotPage.key els = seq 0 (length cs) /\
     map TarotPage.flipped els
     = map (fun idx => idx <? k) (seq 0 (length cs)) /\
     map TarotPage.reversed els
     = map (fun card => truthy (opt_get card "reversed")) cs /\
     map TarotPage.card_id els = map (fun card => opt_get card "id") cs /\
     map TarotPage.card_name els = map (fun card => opt_get card "name") cs) /\
  (Exists (fun card => renders card = false) cs ->
   forall flippedCards, TarotPage.cards_display reading flippedCards = None).
Proof.
  intros Hc. unfold TarotPage.cards_display. rewrite Hc. split.
  - intros Hn.
    destruct (map_cards_faces (flipped_so_far k) cs 0 Hn)
      as (els & He & Hk & Hf & Hr & Hi & Hm).
    exists els. repeat split; try assumption.
    + rewrite <- (length_map TarotPage.key), Hk. apply length_seq.
    + rewrite Hf. apply map_ext. intros idx.
      apply includes_flipped_so_far.
  - intros Hn flippedCards. now apply map_cards_throws.
Qed.

Lemma cards_display_faces_witness :
  exists els,
    TarotPage.cards_display reading_of_three (flipped_so_far 2) = Some els /\
    length els = 3 /\
    map TarotPage.key els = seq 0 3 /\
    map TarotPage.flipped els = map (fun idx => idx <? 2) (seq 0 3) /\
    map TarotPage.reversed els = [false; false; false] /\
    map TarotPage.card_id els = [JNum 5; JNum 70; JNum 12] /\
    map TarotPage.card_name els
    = [JStr (decimal 5); JStr (decimal 70); JStr (decimal 12)].
Proof.
  refine (proj1 (cards_display_faces reading_of_three
                   (Backend.records (fun i => decimal i) (fun _ => false) 0
                      [5; 70; 12]) 2 eq_refl) _).
  repeat constructor.
Defined.

(** ** Blank search, unreadable registration errors *)

(** X21.  [search] with a query that is empty or made of whitespace only returns
    at once: no request, no reply consumed, no state written. *)
Theorem search_blank_query_is_ignored (API_URL : jsstring)
    (encodeURIComponent : jsstring -> jsstring + jsstring)
    (query category : jsstring) (srv : server) (n : nat) :
  forallb is_whitespace query = true ->
  DatabasePage.search API_URL encodeURIComponent query category srv n
  = (Ret tt, n, []).
Proof.
  intros Hw. unfold DatabasePage.search.
  now rewrite (trim_whitespace query Hw).
Qed.

Lemma search_blank_query_is_ignored_witness :
  DatabasePage.search "" (fun s => inl s) [32; 9]%N "all" pending_server 0
  = (Ret tt, 0, []).
Proof.
  apply (search_blank_query_is_ignored "" (fun s => inl s) [32; 9]%N "all"
           pending_server 0).
  reflexivity.
Defined.

Lemma to_string_array l :
  to_string (JArr l)
  = join ","
      (map (fun x => match x with
                     | JUndefined | JNull => []
                     | _ => to_string x
                     end) l).
Proof. reflexivity. Qed.

(** X22.  When the [detail] of a rejected registration is not a string but an
    array of objects, as for a list of validation errors, none of which has a
    property [toString] of its own, the message thrown by [register] and
    shown by [handleSubmit] is ['[object Object]'] once per error, joined by
    commas: the text of the errors is lost. *)
Theorem register_object_details_unreadable (API_URL : jsstring)
    (formData : jsobj) (srv : server) (n : nat) (body : jsobj)
    (errors : list jsobj) :
  srv n = Response false (inl (JObj body)) ->
  lookup "detail" body = Some (JArr (map JObj errors)) ->
  Forall (fun error => lookup "toString" error = None) errors ->
  let message := join "," (map (fun _ => lit "[object Object]") errors) in
  outcome_of (AuthProvider.register API_URL (JObj formData) srv n)
  = Throw message /\
  trace_of (AuthPage.handleSubmit API_URL false (JObj formData) srv n)
  = failed_submit (register_request API_URL (JObj formData)) message.
Proof.
  intros Hs Hd _. cbv zeta.
  assert (Hm : to_string (js_or (opt_get (JObj body) "detail")
                            (JStr "Registration failed"))
               = join "," (map (fun _ => lit "[object Object]") errors)).
  { unfold opt_get, js_or. rewrite Hd. cbn [truthy].
    rewrite to_string_array, map_map. reflexivity. }
  rewrite <- Hm. split.
  - unfold AuthProvider.register, bind, fetch, outcome_of. rewrite Hs.
    reflexivity.
  - run_ops. rewrite Hs. reflexivity.
Qed.

Lemma register_object_details_unreadable_witness :
  let srv : server :=
    fun _ =>
      Response false
        (inl (JObj [field "detail"
                      (JArr (map JObj [[field "msg" (JStr "field required")]]))])) in
  outcome_of (AuthProvider.register "" (JObj []) srv 0)
  = Throw (lit "[object Object]") /\
  trace_of (AuthPage.handleSubmit "" false (JObj []) srv 0)
  = failed_submit (register_request "" (JObj [])) (lit "[object Object]").
Proof.
  cbv zeta.
  apply (register_object_details_unreadable "" [] _ 0
           [field "detail"
              (JArr (map JObj [[field "msg" (JStr "field required")]]))]
           [[field "msg" (JStr "field required")]]);
    first [reflexivity | repeat constructor].
Defined.

Lemma onstop_sends_transcription_witness :
  let srv : server :=
    fun i =>
      if i =? 0 then
        Response true (inl (JObj [field "transcription" (JStr "hello")]))
      else oracle_server i in
  let c := example_closure in
  requests (trace_of (App.perform c App.startRecording_onstop srv 0))
  = [listen_request c;
     oracle_request (App.API_URL c) (App.token c) (App.audioEnabled c) "hello"]
  /\ In (Update VoiceOracle_messages (Append (user_message "hello")))
        (trace_of (App.perform c App.startRecording_onstop srv 0)).
Proof.
  cbv zeta.
  refine (proj1 (onstop_sends_transcription example_closure _ 0)
            (JObj [field "transcription" (JStr "hello")]) "hello"
            eq_refl eq_refl eq_refl).
Defined.
